(** * Transport Record: the computation layer of [app.py]

    A shallow embedding of the functions of [app.py] that carry logic
    ([get_setting], [compute_distance], [flag_daily_anomaly],
    [monthly_vehicle_distance], [service_alerts]
    and the "Add Usage" submit handler), followed by the properties the
    specification states about them.  The rest of the page that computes
    something ([authenticate], [flag_monthly_anomalies], the dashboard
    metrics and chart, the report filters) is embedded as well, with
    further properties of the code.

    Modelling conventions.
    - A Python/pandas double is a [float]: an exact rational [Fin q] or
      [NaN].  Rounding and the infinities are outside the model.
    - A Python value that may be [None] is an [option]; a numeric cell of a
      data frame is a [float] whose missing value is [NaN].
    - A data frame is the list of its rows, a row is a record.
    - An exception is a [Raise] in the [result] type; a function of the
      source that cannot raise returns its value directly.
    - Strings are byte strings; [upper] and [strip] act on ASCII.
    - [float(s)] on a string is the section variable [py_float]: every
      theorem holds for whatever the parser accepts.
    - The repository pins no version of pandas, and line 68 depends on it:
      [astype(str)] writes a missing period as the text [NaT] under
      pandas 2 and keeps it missing under pandas 3.
      [monthly_vehicle_distance_with] takes the behaviour as an argument;
      [monthly_vehicle_distance] is the function with the text [NaT]. *)

From Stdlib Require Import Bool List String Ascii NArith ZArith QArith Lia Lqa.
From Stdlib Require Import Sorting.Permutation Sorting.Sorted Sorting.Mergesort Orders.
Import ListNotations.

Local Open Scope string_scope.
Local Open Scope Q_scope.

(** ** Python values and builtins *)

Module Py.

Inductive float : Type :=
| NaN
| Fin (q : Q).

Inductive value : Type :=
| VNone
| VBool (b : bool)
| VInt (z : Z)
| VFloat (x : float)
| VStr (s : string).

Inductive exn : Type :=
| TypeError
| ValueError.

Inductive result (A : Type) : Type :=
| Ok (a : A)
| Raise (e : exn).

Arguments Ok {A} a.
Arguments Raise {A} e.

Definition bind {A B : Type} (r : result A) (k : A -> result B) : result B :=
  match r with
  | Ok a => k a
  | Raise e => Raise e
  end.

(** [x < y] on rationals, as a boolean. *)
Definition Qlt_bool (x y : Q) : bool :=
  match x ?= y with
  | Lt => true
  | _ => false
  end.

(** Arithmetic and comparisons of doubles: [NaN] propagates through
    arithmetic and makes every comparison false. *)
Definition fsub (x y : float) : float :=
  match x, y with
  | Fin a, Fin b => Fin (a - b)
  | _, _ => NaN
  end.

Definition flt (x y : float) : bool :=
  match x, y with
  | Fin a, Fin b => Qlt_bool a b
  | _, _ => false
  end.

Definition fgt (x y : float) : bool := flt y x.

Definition fge (x y : float) : bool :=
  match x, y with
  | Fin a, Fin b => Qle_bool b a
  | _, _ => false
  end.

Definition of_int (z : Z) : float := Fin (inject_Z z).

(** [bool(v)]. *)
Definition py_bool (v : value) : bool :=
  match v with
  | VNone => false
  | VBool b => b
  | VInt z => negb (z =? 0)%Z
  | VFloat NaN => true
  | VFloat (Fin q) => negb (Qeq_bool q 0)
  | VStr s => negb (s =? "")
  end.

(** [str.upper] on ASCII. *)
Definition upper_ascii (c : ascii) : ascii :=
  let n := N_of_ascii c in
  if ((97 <=? n) && (n <=? 122))%N then ascii_of_N (n - 32) else c.

Fixpoint upper (s : string) : string :=
  match s with
  | EmptyString => EmptyString
  | String c r => String (upper_ascii c) (upper r)
  end.

(** [str.isspace] for one ASCII character. *)
Definition is_space (c : ascii) : bool :=
  let n := N_of_ascii c in
  (((9 <=? n) && (n <=? 13)) || ((28 <=? n) && (n <=? 32)))%N.

Fixpoint lstrip (s : string) : string :=
  match s with
  | EmptyString => EmptyString
  | String c r => if is_space c then lstrip r else s
  end.

Fixpoint rstrip (s : string) : string :=
  match s with
  | EmptyString => EmptyString
  | String c r =>
      match rstrip r with
      | EmptyString => if is_space c then EmptyString else String c EmptyString
      | r' => String c r'
      end
  end.

(** [str.strip()]. *)
Definition strip (s : string) : string := rstrip (lstrip s).

(** [pd.isna] on a value that is [None], [NaN] or a number. *)
Definition isna (x : option float) : bool :=
  match x with
  | Some (Fin _) => false
  | _ => true
  end.

(** A parser of plain decimal literals ([-12], [1000], [2.5]) and of
    [nan], with surrounding white space ignored as [float] does.  It
    covers a part of what [float] accepts (no exponent, no [inf]) and
    instantiates [py_float] where a statement is run on concrete data. *)
Definition digit_of (c : ascii) : option Z :=
  let n := N_of_ascii c in
  if ((48 <=? n) && (n <=? 57))%N then Some (Z.of_N (n - 48)) else None.

Fixpoint digits (acc : Z) (s : string) : option (Z * string) :=
  match s with
  | EmptyString => Some (acc, EmptyString)
  | String c r =>
      match digit_of c with
      | Some d => digits (10 * acc + d) r
      | None => Some (acc, s)
      end
  end.

Definition starts_with_digit (s : string) : bool :=
  match s with
  | String c _ => match digit_of c with Some _ => true | None => false end
  | EmptyString => false
  end.

Definition unsigned_decimal (s : string) : option Q :=
  if starts_with_digit s then
    match digits 0 s with
    | Some (n, EmptyString) => Some (inject_Z n)
    | Some (n, String "." f) =>
        if starts_with_digit f then
          match digits 0 f with
          | Some (m, EmptyString) =>
              Some (inject_Z n + inject_Z m / inject_Z (10 ^ Z.of_nat (String.length f)))
          | _ => None
          end
        else None
    | _ => None
    end
  else None.

Definition float_of_decimal (s : string) : option float :=
  let t := strip s in
  if upper t =? "NAN" then Some NaN
  else
    match t with
    | String "-" r => option_map (fun q => Fin (- q)) (unsigned_decimal r)
    | String "+" r => option_map Fin (unsigned_decimal r)
    | _ => option_map Fin (unsigned_decimal t)
    end.

End Py.

Import Py.

(** ** The sheets of the workbook *)

(** A row of the [Settings] sheet.  [Value] holds the text of the cell, that
    is [str(cell)]. *)
Record Setting : Type := mkSetting {
  Key : string;
  Value : string
}.

(** A calendar date.  A [Date] cell is an [option date]: [None] is [NaT],
    which is what [pd.to_datetime(..., errors="coerce")] makes of a cell it
    cannot read. *)
Record date : Type := mkDate {
  year : Z;
  month : Z;
  day : Z
}.

(** A row of the [Vehicles] sheet.  [read_excel] reads an empty [Company]
    cell as a missing value: [None]. *)
Module Vehicle.
Record row : Type := mk {
  VehicleID : string;
  PlateNo : string;
  Company : option string;
  Status : string;
  Odometer : float;
  LastServiceOdo : float;
  LastServiceDate : option date;
  Notes : string
}.

Definition set_Odometer (x : float) (r : row) : row :=
  mk (VehicleID r) (PlateNo r) (Company r) (Status r) x
     (LastServiceOdo r) (LastServiceDate r) (Notes r).

Definition set_Status (s : string) (r : row) : row :=
  mk (VehicleID r) (PlateNo r) (Company r) s (Odometer r)
     (LastServiceOdo r) (LastServiceDate r) (Notes r).
End Vehicle.

Module Usage.
(** [VehicleID] is [None] where the cell is empty. *)
Record row : Type := mk {
  LogID : Z;
  Date : option date;
  User : string;
  Company : string;
  VehicleID : option string;
  PlateNo : string;
  OdoStart : float;
  OdoEnd : float;
  Distance : float;
  Purpose : string;
  AnomalyFlag : string;
  AnomalyNote : string;
  ApprovedBy : string
}.
End Usage.

(** A row of the monthly aggregate. *)
Record MonthlyRow : Type := mkMonthly {
  VehicleID : string;
  Month : string;
  MonthlyDistance : float
}.

(** The fields of the "Add Usage" form, with the plate read at line 243. *)
Record UsageForm : Type := mkForm {
  date_ : date;
  user : string;
  company : string;
  vehicle_id : option string;
  plate : string;
  odo_start : Z;
  odo_end : Z;
  purpose : string
}.

(** ** pandas operations *)

Module Pandas.

(** A [None] stored in a numeric column is [NaN]. *)
Definition to_cell (x : option float) : float :=
  match x with
  | Some f => f
  | None => NaN
  end.

(** The values of a column that are not [NaN]. *)
Fixpoint present (xs : list float) : list Q :=
  match xs with
  | [] => []
  | NaN :: r => present r
  | Fin q :: r => q :: present r
  end.

(** [sum(min_count=n)]: [NaN] is skipped, and the sum is [NaN] when fewer
    than [n] values are left. *)
Definition sum_min_count (n : nat) (xs : list float) : float :=
  let vals := present xs in
  if (List.length vals <? n)%nat then NaN else Fin (fold_left Qplus vals 0).

(** [str] of a monthly period: [YYYY-MM]. *)
Definition digit_char (d : Z) : ascii := ascii_of_N (48 + Z.to_N d).

Definition pad2 (n : Z) : string :=
  String (digit_char ((n / 10) mod 10)) (String (digit_char (n mod 10)) EmptyString).

Definition pad4 (n : Z) : string := pad2 (n / 100) ++ pad2 (n mod 100).

Definition period_str (d : date) : string := pad4 (year d) ++ "-" ++ pad2 (month d).

(** [.dt.to_period("M").astype(str)] on one cell, as pandas 2 evaluates
    it: [NaT] becomes the text [NaT]. *)
Definition month_str (c : option date) : string :=
  match c with
  | Some d => period_str d
  | None => "NaT"
  end.

(** Group keys and their order: [groupby] sorts its keys, here pairs of
    texts compared component by component. *)
Definition key : Type := (string * string)%type.

Definition key_eq_dec (a b : key) : {a = b} + {a <> b}.
Proof. decide equality; apply string_dec. Defined.

Definition key_eqb (a b : key) : bool :=
  (fst a =? fst b) && (snd a =? snd b).

End Pandas.

Module KeyOrder <: TotalLeBool.
Definition t : Type := Pandas.key.
Definition leb (a b : t) : bool :=
  match String.compare (fst a) (fst b) with
  | Lt => true
  | Eq => String.leb (snd a) (snd b)
  | Gt => false
  end.
Lemma leb_total : forall a b, leb a b = true \/ leb b a = true.
Proof.
  intros [a1 a2] [b1 b2]; unfold leb; simpl.
  rewrite (String.compare_antisym b1 a1).
  destruct (String.compare a1 b1); simpl; auto.
  apply String.leb_total.
Qed.
End KeyOrder.

Module KeySort := Sort KeyOrder.

Import Pandas.

(** The message of line 257. *)
Definition rejection : string := "OdoEnd cannot be less than OdoStart.".

(** What the submit handler does: [Rejected] is the [st.error] of line 257,
    with nothing saved; [Failed] is an exception raised before the first
    [save_sheet]; [Committed u v] is the two [save_sheet] calls of lines 265
    and 270 with the frames they write. *)
Inductive outcome : Type :=
| Rejected (msg : string)
| Failed (e : exn)
| Committed (u : list Usage.row) (v : list Vehicle.row).

(** A row of the [Users] sheet. *)
Module Account.
Record row : Type := mk {
  Username : string;
  Password : string;
  Role : string;
  FullName : string;
  Company : string
}.
End Account.

(** The dictionary that [authenticate] returns. *)
Module Auth.
Record t : Type := mk {
  username : string;
  role : string;
  fullname : string;
  company : string
}.
End Auth.

(** A row of "Availability by Company" (lines 140 to 143). *)
Record CompanyRow : Type := mkCompany {
  Company : string;
  Available : Z;
  Total : Z;
  InUse : Z
}.

(** The frame that [pivot] builds for the mileage chart: the labels of its
    rows and columns and its cells, row by row. *)
Record Pivot : Type := mkPivot {
  index : list string;
  columns : list string;
  cells : list (list float)
}.

(** Texts in code point order, for [sorted] and for the sorted labels of
    [groupby] and [pivot]. *)
Module TextOrder <: TotalLeBool.
Definition t : Type := string.
Definition leb (a b : t) : bool := String.leb a b.
Definition leb_total : forall a b, leb a b = true \/ leb b a = true :=
  String.leb_total.
End TextOrder.

Module TextSort := Sort TextOrder.

Section App.

(** [float(s)] for a string [s]; [None] stands for [ValueError]. *)
Variable py_float : string -> option float.

(** [float(v)]. *)
Definition to_float (v : value) : result float :=
  match v with
  | VNone => Raise TypeError
  | VBool b => Ok (if b then Fin 1 else Fin 0)
  | VInt z => Ok (of_int z)
  | VFloat x => Ok x
  | VStr s =>
      match py_float s with
      | Some x => Ok x
      | None => Raise ValueError
      end
  end.

(** The coercion of the text of a setting (lines 38 to 44). *)
Definition coerce (raw : string) : value :=
  let val := strip raw in
  if existsb (String.eqb (upper val)) ["TRUE"; "FALSE"] then
    VBool (upper val =? "TRUE")
  else
    match py_float val with
    | Some x => VFloat x
    | None => VStr val
    end.

(** Lines 33 to 44.  [settings] is the sheet that [load_sheets] returns;
    [row.iloc[0]] is the first row with the key. *)
Definition get_setting (settings : list Setting) (key : string) (default : value) : value :=
  let row := filter (fun r => Key r =? key) settings in
  match row with
  | [] => default
  | r0 :: _ => coerce (Value r0)
  end.

(** Lines 54 to 56.  The callers pass [None], [NaN] or a number: the
    odometer columns went through [pd.to_numeric(errors="coerce")] at line
    23, and the form gives integers. *)
Definition compute_distance (start end_ : option float) : option float :=
  if isna start || isna end_ then None
  else
    match start, end_ with
    | Some s, Some e => Some (fsub e s)
    | _, _ => None
    end.

(** Lines 58 to 61.  The limit is read first, [float(limit)] is evaluated
    only when the distance is not [None]. *)
Definition flag_daily_anomaly (settings : list Setting) (distance : option float)
  : result string :=
  let limit := get_setting settings "DAILY_TRIP_LIMIT" (VInt 1000) in
  match distance with
  | None => Ok ""
  | Some d =>
      bind (to_float limit) (fun l =>
      Ok (if fgt d l then "DAILY_HIGH" else ""))
  end.

(** The key of a row in [groupby(["VehicleID","Month"])]; a row whose
    [VehicleID] is missing belongs to no group. *)
Definition group_key (r : Usage.row * string) : option key :=
  match Usage.VehicleID (fst r) with
  | Some v => Some (v, snd r)
  | None => None
  end.

Definition in_group (k : key) (r : Usage.row * string) : bool :=
  match group_key r with
  | Some k' => key_eqb k' k
  | None => false
  end.

Fixpoint group_keys (df : list (Usage.row * string)) : list key :=
  match df with
  | [] => []
  | r :: rest =>
      match group_key r with
      | Some k => k :: group_keys rest
      | None => group_keys rest
      end
  end.

(** Lines 63 to 70.  [df] is the frame with its new [Month] column.
    [groupby] has one group per key that occurs, in ascending order of the
    keys, and skips the rows whose key has a missing component;
    [sum(min_count=1)] adds up the distances of a group that are not
    [NaN]. *)
Definition monthly_vehicle_distance (usage_df : list Usage.row) : list MonthlyRow :=
  match usage_df with
  | [] => []
  | _ =>
      let df := map (fun r => (r, month_str (Usage.Date r))) usage_df in
      let keys := KeySort.sort (nodup key_eq_dec (group_keys df)) in
      map (fun k =>
             mkMonthly (fst k) (snd k)
               (sum_min_count 1
                  (map (fun r => Usage.Distance (fst r)) (filter (in_group k) df))))
          keys
  end.

(** Line 68 on one cell, for either pandas: a date gives the text of its
    month; [NaT] gives the text [NaT] when [nat_as_text] holds (pandas 2)
    and stays missing otherwise (pandas 3). *)
Definition month_label (nat_as_text : bool) (c : option date) : option string :=
  match c with
  | Some d => Some (period_str d)
  | None => if nat_as_text then Some "NaT" else None
  end.

(** The key of a row under [groupby(["VehicleID","Month"])] when the
    [Month] cell may be missing as well. *)
Definition labelled_key (r : Usage.row * option string) : option key :=
  match Usage.VehicleID (fst r), snd r with
  | Some v, Some m => Some (v, m)
  | _, _ => None
  end.

Definition in_labelled_group (k : key) (r : Usage.row * option string) : bool :=
  match labelled_key r with
  | Some k' => key_eqb k' k
  | None => false
  end.

Fixpoint labelled_keys (df : list (Usage.row * option string)) : list key :=
  match df with
  | [] => []
  | r :: rest =>
      match labelled_key r with
      | Some k => k :: labelled_keys rest
      | None => labelled_keys rest
      end
  end.

(** Lines 63 to 70 again, with the behaviour of line 68 as an argument.
    [groupby] skips a row whose [VehicleID] or [Month] is missing. *)
Definition monthly_vehicle_distance_with (nat_as_text : bool)
    (usage_df : list Usage.row) : list MonthlyRow :=
  match usage_df with
  | [] => []
  | _ =>
      let df := map (fun r => (r, month_label nat_as_text (Usage.Date r))) usage_df in
      let keys := KeySort.sort (nodup key_eq_dec (labelled_keys df)) in
      map (fun k =>
             mkMonthly (fst k) (snd k)
               (sum_min_count 1
                  (map (fun r => Usage.Distance (fst r))
                       (filter (in_labelled_group k) df))))
          keys
  end.


(** Lines 77 to 81.  The rows of the result carry the new column
    [NeedService]. *)
Definition service_alerts (settings : list Setting) (vehicles : list Vehicle.row)
  : result (list (Vehicle.row * bool)) :=
  bind (to_float (get_setting settings "SERVICE_INTERVAL_KM" (VInt 10000)))
    (fun interval =>
       let v := map (fun r =>
                       (r, fge (fsub (Vehicle.Odometer r) (Vehicle.LastServiceOdo r))
                               interval))
                    vehicles in
       Ok (filter snd v)).

(** [usage["LogID"].max()] of a frame that is not empty. *)
Definition max_LogID (r0 : Usage.row) (rest : list Usage.row) : Z :=
  fold_left (fun m r => Z.max m (Usage.LogID r)) rest (Usage.LogID r0).

(** [v["VehicleID"] == vehicle_id] on one row; the select box gives [None]
    when there is no vehicle to choose. *)
Definition matches (vid : option string) (r : Vehicle.row) : bool :=
  match vid with
  | Some v => Vehicle.VehicleID r =? v
  | None => false
  end.

(** The "Add Usage" handler, lines 253 to 274: [usage] and [vehicles] are
    the frames in scope, [username] is [auth["username"]].  The two
    [save_sheet] calls are the [Committed] outcome; the messages shown
    after them are not modelled. *)
Definition submit2 (settings : list Setting) (usage : list Usage.row)
    (vehicles : list Vehicle.row) (username : string) (f : UsageForm) : outcome :=
  let negative_block :=
    py_bool (get_setting settings "NEGATIVE_MILEAGE_BLOCK" (VBool true)) in
  let dist := compute_distance (Some (of_int (odo_start f))) (Some (of_int (odo_end f))) in
  if negative_block
     && (match dist with None => true | Some d => flt d (Fin 0) end)
  then Rejected rejection
  else
    let new_id :=
      match usage with
      | [] => 1%Z
      | r0 :: rest => (max_LogID r0 rest + 1)%Z
      end in
    match flag_daily_anomaly settings dist with
    | Raise e => Failed e
    | Ok anomaly =>
        let new_row :=
          Usage.mk new_id (Some (date_ f)) (user f) (company f) (vehicle_id f)
            (plate f) (of_int (odo_start f)) (of_int (odo_end f)) (to_cell dist)
            (purpose f) anomaly "" username in
        let u := (usage ++ [new_row])%list in
        let v := map (fun r => if matches (vehicle_id f) r
                               then Vehicle.set_Odometer (of_int (odo_end f)) r
                               else r) vehicles in
        let v := map (fun r => if matches (vehicle_id f) r
                               then Vehicle.set_Status "Available" r
                               else r) v in
        Committed u v
    end.

(** The sheets of the workbook after the handler has run. *)
Definition sheets_after (usage : list Usage.row) (vehicles : list Vehicle.row)
    (o : outcome) : list Usage.row * list Vehicle.row :=
  match o with
  | Committed u v => (u, v)
  | _ => (usage, vehicles)
  end.

(** ** The claims as the specification words them, where the code differs *)

(** The coercion of 4.1 read on the text of the cell as it stands:
    [TRUE]/[FALSE] in any case, else a number, else the text. *)
Definition coerce_as_stated (raw : string) : value :=
  if existsb (String.eqb (upper raw)) ["TRUE"; "FALSE"] then
    VBool (upper raw =? "TRUE")
  else
    match py_float raw with
    | Some x => VFloat x
    | None => VStr raw
    end.

(** ** The thresholds as their users read them *)

(** The threshold of the daily check: [float(get_setting(...))]. *)
Definition daily_trip_limit (settings : list Setting) : result float :=
  to_float (get_setting settings "DAILY_TRIP_LIMIT" (VInt 1000)).

(** The interval of the service check. *)
Definition service_interval (settings : list Setting) : result float :=
  to_float (get_setting settings "SERVICE_INTERVAL_KM" (VInt 10000)).

(** What [bool(get_setting("NEGATIVE_MILEAGE_BLOCK", True))] gives. *)
Definition negative_mileage_block (settings : list Setting) : bool :=
  py_bool (get_setting settings "NEGATIVE_MILEAGE_BLOCK" (VBool true)).

(** ** The groups of the monthly aggregate, read off the trip records *)


(** The [Distance] cells of the trips of vehicle [v] with month text [m],
    in the order of the frame. *)
Definition group_distances (usage_df : list Usage.row) (v m : string) : list float :=
  map Usage.Distance
    (filter (fun r => match Usage.VehicleID r with
                      | Some v' => (v' =? v) && (month_str (Usage.Date r) =? m)
                      | None => false
                      end) usage_df).

(** The same under either pandas: the [Distance] cells of the trips that
    [groupby] puts in the group of [v] and [m], in the order of the frame. *)
Definition labelled_distances (nat_as_text : bool) (usage_df : list Usage.row)
    (v m : string) : list float :=
  map Usage.Distance
    (filter (fun r => match Usage.VehicleID r,
                            month_label nat_as_text (Usage.Date r) with
                      | Some v', Some m' => (v' =? v) && (m' =? m)
                      | _, _ => false
                      end) usage_df).

Fixpoint Qsum (l : list Q) : Q :=
  match l with
  | [] => 0
  | x :: r => x + Qsum r
  end.

Definition row_key (g : MonthlyRow) : key := (VehicleID g, Month g).

(** ** The rest of the page: login, monthly flags, dashboard, reports *)

(** Lines 46 to 52. *)
Definition authenticate (users : list Account.row) (username password : string)
  : option Auth.t :=
  let row := filter (fun r => (Account.Username r =? username)
                              && (Account.Password r =? password)) users in
  match row with
  | [] => None
  | r :: _ =>
      Some (Auth.mk (Account.Username r) (Account.Role r)
                    (Account.FullName r) (Account.Company r))
  end.

(** The entries of the navigation radio, line 123. *)
Definition sections (role : string) : list string :=
  (["Dashboard"; "Vehicles"; "Usage"; "Reports"]
   ++ (if role =? "Admin" then ["Admin"] else []))%list.

(** [pd.notna] on a cell. *)
Definition notna (x : float) : bool :=
  match x with
  | Fin _ => true
  | NaN => false
  end.

(** Lines 72 to 75: the frame with its new column [MonthlyFlag].  The
    threshold is converted before the frame is looked at. *)
Definition flag_monthly_anomalies (settings : list Setting) (monthly_df : list MonthlyRow)
  : result (list (MonthlyRow * string)) :=
  bind (to_float (get_setting settings "MONTHLY_HIGH_JUMP" (VInt 4000)))
    (fun jump =>
       Ok (map (fun g =>
                  (g, if notna (MonthlyDistance g) && fgt (MonthlyDistance g) jump
                      then "MONTHLY_HIGH" else ""))
               monthly_df)).

(** Line 119. *)
Definition monthly (settings : list Setting) (usage : list Usage.row)
  : result (list (MonthlyRow * string)) :=
  flag_monthly_anomalies settings (monthly_vehicle_distance usage).

(** Line 150: the rows shown under "Monthly anomalies detected". *)
Definition monthly_flags (monthly_df : list (MonthlyRow * string))
  : list (MonthlyRow * string) :=
  filter (fun g => negb (snd g =? "")) monthly_df.

(** [str.lower] on ASCII. *)
Definition lower_ascii (c : ascii) : ascii :=
  let n := N_of_ascii c in
  if ((65 <=? n) && (n <=? 90))%N then ascii_of_N (n + 32) else c.

Fixpoint lower (s : string) : string :=
  match s with
  | EmptyString => EmptyString
  | String c r => String (lower_ascii c) (lower r)
  end.

(** The three metrics of the dashboard, lines 130 to 137. *)
Definition is_available (r : Vehicle.row) : bool :=
  lower (Vehicle.Status r) =? "available".

Definition total_vehicles (vehicles : list Vehicle.row) : Z :=
  Z.of_nat (List.length vehicles).

Definition available (vehicles : list Vehicle.row) : Z :=
  Z.of_nat (List.length (filter is_available vehicles)).

Definition in_use (vehicles : list Vehicle.row) : Z :=
  (total_vehicles vehicles - available vehicles)%Z.

(** The values of a column that are not missing. *)
Fixpoint dropna (values : list (option string)) : list string :=
  match values with
  | [] => []
  | Some v :: r => v :: dropna r
  | None :: r => dropna r
  end.

(** The rows of the group of company [c]. *)
Definition in_company (c : string) (r : Vehicle.row) : bool :=
  match Vehicle.Company r with
  | Some c' => c' =? c
  | None => false
  end.

(** Lines 140 to 143: [groupby("Company")] with the sum and the count of
    [isAvailable], one row per company in ascending order.  A vehicle
    whose [Company] is missing is in no group. *)
Definition availability_by_company (vehicles : list Vehicle.row) : list CompanyRow :=
  map (fun c =>
         let grp := filter (in_company c) vehicles in
         mkCompany c (available grp) (total_vehicles grp)
                   (total_vehicles grp - available grp)%Z)
      (TextSort.sort (nodup string_dec (dropna (map Vehicle.Company vehicles)))).

(** The vehicles that have a company. *)
Definition has_company (r : Vehicle.row) : bool :=
  match Vehicle.Company r with
  | Some _ => true
  | None => false
  end.

(** Line 148: [pivot(index="Month", columns="VehicleID",
    values="MonthlyDistance").fillna(0.0)].  [pivot] refuses a frame in
    which a (month, vehicle) pair occurs twice; its labels are sorted and a
    pair without a row gives [NaN], which [fillna] turns into 0. *)
Fixpoint has_duplicates (l : list key) : bool :=
  match l with
  | [] => false
  | k :: r => existsb (key_eqb k) r || has_duplicates r
  end.

Definition cell_of (monthly_df : list (MonthlyRow * string)) (m v : string) : float :=
  match find (fun g => (Month (fst g) =? m) && (VehicleID (fst g) =? v)) monthly_df with
  | Some g => MonthlyDistance (fst g)
  | None => NaN
  end.

Definition fillna (value : Q) (x : float) : float :=
  match x with
  | NaN => Fin value
  | Fin _ => x
  end.

Definition pivot_chart (monthly_df : list (MonthlyRow * string)) : result Pivot :=
  if has_duplicates (map (fun g => (Month (fst g), VehicleID (fst g))) monthly_df)
  then Raise ValueError
  else
    let idx := TextSort.sort (nodup string_dec (map (fun g => Month (fst g)) monthly_df)) in
    let cols := TextSort.sort (nodup string_dec (map (fun g => VehicleID (fst g)) monthly_df)) in
    Ok (mkPivot idx cols
          (map (fun m => map (fun v => fillna 0 (cell_of monthly_df m v)) cols) idx)).

(** Lines 183 to 187: the entries of a filter, [All] and then the values of
    the column that are not missing, each once, sorted. *)
Definition filter_options (values : list (option string)) : list string :=
  "All" :: TextSort.sort (nodup string_dec (dropna values)).

Definition company_options (usage : list Usage.row) : list string :=
  filter_options (map (fun r => Some (Usage.Company r)) usage).

Definition vehicle_options (usage : list Usage.row) : list string :=
  filter_options (map Usage.VehicleID usage).

Definition user_options (usage : list Usage.row) : list string :=
  filter_options (map (fun r => Some (Usage.User r)) usage).

(** Lines 189 to 192: the rows of the report for the three choices. *)
Definition report (company_f vehicle_f user_f : string) (usage : list Usage.row)
  : list Usage.row :=
  let df := usage in
  let df := if negb (company_f =? "All")
            then filter (fun r => Usage.Company r =? company_f) df else df in
  let df := if negb (vehicle_f =? "All")
            then filter (fun r => match Usage.VehicleID r with
                                  | Some v => v =? vehicle_f
                                  | None => false
                                  end) df
            else df in
  let df := if negb (user_f =? "All")
            then filter (fun r => Usage.User r =? user_f) df else df in
  df.

(** Lines 147 to 155: the chart is drawn only for a frame with rows. *)
Definition mileage_chart (monthly_df : list (MonthlyRow * string))
  : option (result Pivot) :=
  match monthly_df with
  | [] => None
  | _ => Some (pivot_chart monthly_df)
  end.

(** The threshold of the monthly check. *)
Definition monthly_high_jump (settings : list Setting) : result float :=
  to_float (get_setting settings "MONTHLY_HIGH_JUMP" (VInt 4000)).

(** The identifier of line 259. *)
Definition new_LogID (usage : list Usage.row) : Z :=
  match usage with
  | [] => 1%Z
  | r0 :: rest => (max_LogID r0 rest + 1)%Z
  end.

(** The vehicles frame of lines 267 to 269. *)
Definition returned_vehicles (f : UsageForm) (vehicles : list Vehicle.row)
  : list Vehicle.row :=
  map (fun r => if matches (vehicle_id f) r
                then Vehicle.set_Status "Available" r else r)
    (map (fun r => if matches (vehicle_id f) r
                   then Vehicle.set_Odometer (of_int (odo_end f)) r else r)
       vehicles).

Fixpoint Zsum (l : list Z) : Z :=
  match l with
  | [] => 0%Z
  | x :: r => (x + Zsum r)%Z
  end.

(** The report as one pass over the frame. *)
Definition passes (company_f vehicle_f user_f : string) (r : Usage.row) : bool :=
  ((company_f =? "All") || (Usage.Company r =? company_f))
  && ((vehicle_f =? "All")
      || match Usage.VehicleID r with
         | Some v => v =? vehicle_f
         | None => false
         end)
  && ((user_f =? "All") || (Usage.User r =? user_f)).

(** ** Sample data: the scenarios of section 8 of the specification *)

Definition sample_vehicle (odometer : Z) : Vehicle.row :=
  Vehicle.mk "V1" "WXY 1234" (Some "PGB") "In Use" (of_int odometer) (of_int 0) None "".

Definition other_vehicle : Vehicle.row :=
  Vehicle.mk "V2" "WXY 5678" (Some "PGB") "In Use" (of_int 700) (of_int 0) None "".

Definition sample_form (start end_ : Z) : UsageForm :=
  mkForm (mkDate 2025 3 14) "driver" "PGB" (Some "V1") "WXY 1234" start end_ "site visit".

Definition sample_trip (id : Z) (d : option date) (v : option string)
    (distance : float) : Usage.row :=
  Usage.mk id d "driver" "PGB" v "WXY 1234" NaN NaN distance "" "" "" "admin".

Definition padded_settings : list Setting :=
  [mkSetting "NEGATIVE_MILEAGE_BLOCK" " false ";
   mkSetting "DAILY_TRIP_LIMIT" "1500";
   mkSetting "SITE" " Kerteh "].

Definition block_off : list Setting :=
  [mkSetting "NEGATIVE_MILEAGE_BLOCK" "FALSE"].

Definition bad_limit : list Setting :=
  [mkSetting "DAILY_TRIP_LIMIT" "abc"].

Definition block_off_bad_limit : list Setting :=
  [mkSetting "NEGATIVE_MILEAGE_BLOCK" "FALSE";
   mkSetting "DAILY_TRIP_LIMIT" "abc"].

Definition short_interval : list Setting :=
  [mkSetting "SERVICE_INTERVAL_KM" "7500"].

Definition gapped_ledger : list Usage.row :=
  [sample_trip 1 (Some (mkDate 2025 1 10)) (Some "V1") (Fin 40);
   sample_trip 7 (Some (mkDate 2025 1 22)) (Some "V1") NaN;
   sample_trip 3 None (Some "V1") (Fin 25)].

Definition repeated_key : list Setting :=
  [mkSetting "SITE" "Kerteh";
   mkSetting "DAILY_TRIP_LIMIT" "1500";
   mkSetting "DAILY_TRIP_LIMIT" "abc"].

Definition zero_block : list Setting :=
  [mkSetting "NEGATIVE_MILEAGE_BLOCK" " 0 "].

Definition low_jump : list Setting :=
  [mkSetting "MONTHLY_HIGH_JUMP" "30"].

Definition bad_jump : list Setting :=
  [mkSetting "MONTHLY_HIGH_JUMP" "abc"].

Definition sample_users : list Account.row :=
  [Account.mk "aminah" "s3cret" "User" "Aminah" "PGB";
   Account.mk "radzi" "pw1" "Admin" "Radzi" "PGB";
   Account.mk "radzi" "pw1" "User" "Radzi (old)" "PGB"].

Definition sample_fleet : list Vehicle.row :=
  [Vehicle.mk "V1" "WXY 1234" (Some "PGB") "In Use" (of_int 5000) (of_int 0) None "";
   Vehicle.mk "V2" "WXY 5678" (Some "PGB") "AVAILABLE" (of_int 700) (of_int 0) None "";
   Vehicle.mk "V3" "ABC 1" (Some "Contractor") "Maintenance" (of_int 90) (of_int 0)
     None ""].

Definition unowned_vehicle : Vehicle.row :=
  Vehicle.mk "V4" "DEF 2" None "Available" (of_int 10) (of_int 0) None "".

(** ** Properties *)

(** *** Comparisons *)

Lemma Qlt_bool_iff : forall x y, Qlt_bool x y = true <-> x < y.
Proof.
  intros x y. unfold Qlt_bool. rewrite Qlt_alt.
  destruct (x ?= y); split; congruence.
Qed.

Lemma Qlt_bool_irrefl : forall x y, x == y -> Qlt_bool x y = false.
Proof.
  intros x y H. destruct (Qlt_bool x y) eqn:E; trivial.
  apply Qlt_bool_iff in E. rewrite H in E. now apply Qlt_irrefl in E.
Qed.

Lemma fgt_iff : forall x y,
    fgt x y = true <-> exists a b, x = Fin a /\ y = Fin b /\ b < a.
Proof.
  intros x y. unfold fgt, flt. split.
  - destruct y as [|b]; [discriminate|]. destruct x as [|a]; [discriminate|].
    intros H. exists a, b. repeat split. now apply Qlt_bool_iff.
  - intros (a & b & -> & -> & H). now apply Qlt_bool_iff.
Qed.

Lemma fge_iff : forall x y,
    fge x y = true <-> exists a b, x = Fin a /\ y = Fin b /\ b <= a.
Proof.
  intros x y. unfold fge. split.
  - destruct x as [|a]; [discriminate|]. destruct y as [|b]; [discriminate|].
    intros H. exists a, b. repeat split. now apply Qle_bool_iff.
  - intros (a & b & -> & -> & H). now apply Qle_bool_iff.
Qed.

(** *** Settings *)

Lemma get_setting_find : forall settings key default,
    get_setting settings key default =
    match find (fun r => Key r =? key) settings with
    | Some r => coerce (Value r)
    | None => default
    end.
Proof.
  intros settings key default. unfold get_setting.
  induction settings as [|r rest IH]; simpl; [reflexivity|].
  destruct (Key r =? key); [reflexivity|exact IH].
Qed.

Lemma find_key_none : forall settings key,
    find (fun r => Key r =? key) settings = None <->
    (forall r, In r settings -> Key r <> key).
Proof.
  intros settings key. split.
  - intros H r Hin Heq.
    apply (find_none _ _ H) in Hin. simpl in Hin.
    apply String.eqb_neq in Hin. contradiction.
  - intros H. induction settings as [|r rest IH]; simpl; [reflexivity|].
    destruct (String.eqb_spec (Key r) key) as [E|E].
    + exfalso. apply (H r); [now left|exact E].
    + apply IH. intros r' Hin. apply H. now right.
Qed.

Lemma get_setting_absent : forall settings key default,
    (forall r, In r settings -> Key r <> key) ->
    get_setting settings key default = default.
Proof.
  intros settings key default H. rewrite get_setting_find.
  apply find_key_none in H. now rewrite H.
Qed.

Lemma is_bool_text : forall s,
    existsb (String.eqb (upper s)) ["TRUE"; "FALSE"] = true <->
    upper s = "TRUE" \/ upper s = "FALSE".
Proof.
  intros s. cbn [existsb]. rewrite orb_false_r, orb_true_iff, !String.eqb_eq.
  tauto.
Qed.

(** C9 (as amended).  [get_setting] returns the default when no row has
    the key.  Otherwise it reads the first row with the key, removes the
    white space around the text of its value, and returns a boolean when
    that text is [TRUE] or [FALSE] in any case, else the number [float]
    parses from it, else the trimmed text itself; being a total function
    it raises for no value. *)
Theorem get_setting_coerces_trimmed_value : forall settings key default,
    ((forall r, In r settings -> Key r <> key) ->
     get_setting settings key default = default) /\
    (forall r, find (fun r => Key r =? key) settings = Some r ->
       let val := strip (Value r) in
       (upper val = "TRUE" -> get_setting settings key default = VBool true) /\
       (upper val = "FALSE" -> get_setting settings key default = VBool false) /\
       (forall x, upper val <> "TRUE" -> upper val <> "FALSE" ->
                  py_float val = Some x ->
                  get_setting settings key default = VFloat x) /\
       (upper val <> "TRUE" -> upper val <> "FALSE" ->
        py_float val = None ->
        get_setting settings key default = VStr val)).
Proof.
  intros settings key default. split.
  - apply get_setting_absent.
  - intros r Hfind val. rewrite get_setting_find, Hfind. unfold coerce.
    fold val.
    destruct (existsb (String.eqb (upper val)) ["TRUE"; "FALSE"]) eqn:E.
    + apply is_bool_text in E. repeat split.
      * intros ->. reflexivity.
      * intros ->. reflexivity.
      * intros x H1 H2. tauto.
      * intros H1 H2. tauto.
    + assert (N : ~ (upper val = "TRUE" \/ upper val = "FALSE")).
      { rewrite <- is_bool_text, E. discriminate. }
      repeat split.
      * intros H. tauto.
      * intros H. tauto.
      * intros x _ _ ->. reflexivity.
      * intros _ _ ->. reflexivity.
Qed.

(** *** Distance *)

(** C2.  [compute_distance] is absent exactly when one of the readings is
    missing ([None] or [NaN]); on two numbers it is [end - start], signed,
    so a negative difference is returned as it is. *)
Theorem compute_distance_absent_iff_missing :
    (forall start end_,
        compute_distance start end_ = None <->
        isna start = true \/ isna end_ = true) /\
    (forall a b,
        compute_distance (Some (Fin a)) (Some (Fin b)) = Some (Fin (b - a))) /\
    compute_distance (Some (of_int 100)) (Some (of_int 90)) = Some (Fin (-10)).
Proof.
  split; [|split].
  - intros start end_. unfold compute_distance.
    destruct (isna start || isna end_) eqn:E.
    + apply orb_true_iff in E. tauto.
    + apply orb_false_iff in E. destruct E as [E1 E2].
      destruct start as [[|s]|]; try discriminate E1.
      destruct end_ as [[|e]|]; try discriminate E2.
      split; [discriminate|]. intros [H|H]; discriminate H.
  - intros a b. reflexivity.
  - reflexivity.
Qed.

(** *** Daily anomaly *)

(** C3.  The daily flag is [DAILY_HIGH] exactly when the distance is a
    number strictly above the threshold; an absent distance gives the
    empty flag, a distance equal to the threshold gives the empty flag,
    and the threshold is 1000 when the setting is absent. *)
Theorem flag_daily_anomaly_strict : forall settings distance,
    (flag_daily_anomaly settings distance = Ok "DAILY_HIGH" <->
     exists d l, distance = Some (Fin d) /\
                 daily_trip_limit settings = Ok (Fin l) /\ l < d) /\
    (distance = None -> flag_daily_anomaly settings distance = Ok "") /\
    (distance = Some NaN ->
     flag_daily_anomaly settings distance <> Ok "DAILY_HIGH") /\
    (forall d l, distance = Some (Fin d) ->
                 daily_trip_limit settings = Ok (Fin l) -> d == l ->
                 flag_daily_anomaly settings distance = Ok "") /\
    ((forall r, In r settings -> Key r <> "DAILY_TRIP_LIMIT") ->
     daily_trip_limit settings = Ok (Fin 1000)).
Proof.
  intros settings distance. unfold daily_trip_limit.
  assert (Hiff : flag_daily_anomaly settings distance = Ok "DAILY_HIGH" <->
     exists d l, distance = Some (Fin d) /\
                 to_float (get_setting settings "DAILY_TRIP_LIMIT" (VInt 1000))
                 = Ok (Fin l) /\ l < d).
  { unfold flag_daily_anomaly.
    destruct distance as [x|].
    - destruct (to_float (get_setting settings "DAILY_TRIP_LIMIT" (VInt 1000)))
        as [lim|e]; simpl.
      + destruct (fgt x lim) eqn:G.
        * apply fgt_iff in G. destruct G as (a & b & -> & -> & H).
          split; [|reflexivity]. intros _. now exists a, b.
        * split; [discriminate|].
          intros (d & l & Hd & Hl & Hlt).
          injection Hd as ->. injection Hl as ->.
          assert (T : fgt (Fin d) (Fin l) = true)
            by (apply fgt_iff; now exists d, l).
          congruence.
      + split; [discriminate|]. intros (d & l & _ & Hl & _). discriminate.
    - split; [discriminate|]. intros (d & l & Hd & _). discriminate. }
  split; [exact Hiff|]. split; [|split; [|split]].
  - intros ->. reflexivity.
  - intros -> H. apply Hiff in H. destruct H as (d & l & Hd & _). discriminate.
  - intros d l -> Hl Heq. unfold flag_daily_anomaly. rewrite Hl. simpl.
    unfold fgt, flt. rewrite Qlt_bool_irrefl; [reflexivity|].
    now symmetry.
  - intros H. rewrite (get_setting_absent _ _ _ H). reflexivity.
Qed.

(** *** Service alerts *)

(** C6.  [service_alerts] takes its interval from the settings sheet: the
    number in the first [SERVICE_INTERVAL_KM] row, whatever number that is,
    and 10000 when the sheet has no such row.  With that interval it
    returns exactly the vehicles whose odometer has advanced by at least
    the interval since the last service; a vehicle whose advance equals
    the interval is returned. *)
Theorem service_alerts_inclusive : forall settings vehicles,
    (forall r x,
        find (fun s => Key s =? "SERVICE_INTERVAL_KM") settings = Some r ->
        upper (strip (Value r)) <> "TRUE" ->
        upper (strip (Value r)) <> "FALSE" ->
        py_float (strip (Value r)) = Some x ->
        service_interval settings = Ok x) /\
    ((forall r, In r settings -> Key r <> "SERVICE_INTERVAL_KM") ->
     service_interval settings = Ok (Fin 10000)) /\
    (forall interval,
        service_interval settings = Ok interval ->
        exists rows,
          service_alerts settings vehicles = Ok rows /\
          (forall r, In r (map fst rows) <->
                     In r vehicles /\
                     exists o l i, Vehicle.Odometer r = Fin o /\
                                   Vehicle.LastServiceOdo r = Fin l /\
                                   interval = Fin i /\ i <= o - l) /\
          (forall r o l i, In r vehicles ->
                           Vehicle.Odometer r = Fin o ->
                           Vehicle.LastServiceOdo r = Fin l ->
                           interval = Fin i -> o - l == i ->
                           In r (map fst rows))).
Proof.
  intros settings vehicles. split; [|split].
  - intros r x Hfind N1 N2 Hx. unfold service_interval.
    rewrite get_setting_find, Hfind. unfold coerce.
    destruct (existsb (String.eqb (upper (strip (Value r)))) ["TRUE"; "FALSE"]) eqn:E.
    + apply is_bool_text in E. destruct E; contradiction.
    + rewrite Hx. reflexivity.
  - intros H. unfold service_interval. rewrite (get_setting_absent _ _ _ H).
    reflexivity.
  - intros interval Hi. unfold service_interval in Hi.
    unfold service_alerts. rewrite Hi. simpl.
    eexists. split; [reflexivity|].
    assert (Hmem : forall r,
      In r (map fst (filter snd (map (fun r0 =>
         (r0, fge (fsub (Vehicle.Odometer r0) (Vehicle.LastServiceOdo r0)) interval))
         vehicles))) <->
      In r vehicles /\
      exists o l i, Vehicle.Odometer r = Fin o /\ Vehicle.LastServiceOdo r = Fin l /\
                    interval = Fin i /\ i <= o - l).
    { intros r. rewrite in_map_iff. split.
      - intros ([r' b] & Hfst & Hin). simpl in Hfst. subst r'.
        apply filter_In in Hin. destruct Hin as [Hin Hb]. simpl in Hb. subst b.
        apply in_map_iff in Hin. destruct Hin as (r0 & Heq & Hin0).
        injection Heq as -> Hge. split; [exact Hin0|].
        apply fge_iff in Hge. destruct Hge as (a & i & Ha & -> & Hle).
        destruct (Vehicle.Odometer r) as [|o]; [discriminate|].
        destruct (Vehicle.LastServiceOdo r) as [|l]; [discriminate|].
        simpl in Ha. injection Ha as <-. now exists o, l, i.
      - intros (Hin & o & l & i & Ho & Hl & -> & Hle).
        exists (r, true). split; [reflexivity|].
        apply filter_In. split; [|reflexivity].
        apply in_map_iff. exists r. split; [|exact Hin].
        f_equal. rewrite Ho, Hl. simpl. now apply Qle_bool_iff. }
    split; [exact Hmem|].
    intros r o l i Hin Ho Hl -> Heq. apply Hmem. split; [exact Hin|].
    exists o, l, i. repeat split; trivial. rewrite Heq. apply Qle_refl.
Qed.

(** *** The submit handler *)

Lemma handler_distance : forall f,
    compute_distance (Some (of_int (odo_start f))) (Some (of_int (odo_end f)))
    = Some (Fin (inject_Z (odo_end f) - inject_Z (odo_start f))).
Proof. reflexivity. Qed.

Lemma negative_distance_iff : forall f,
    flt (Fin (inject_Z (odo_end f) - inject_Z (odo_start f))) (Fin 0) = true <->
    (odo_end f < odo_start f)%Z.
Proof.
  intros f. simpl. rewrite Qlt_bool_iff, Zlt_Qlt. split; intros H; lra.
Qed.

Lemma max_LogID_acc : forall rest m0,
    let M := fold_left (fun m r => Z.max m (Usage.LogID r)) rest m0 in
    (M = m0 \/ In M (map Usage.LogID rest)) /\
    (m0 <= M)%Z /\
    (forall i, In i (map Usage.LogID rest) -> (i <= M)%Z).
Proof.
  induction rest as [|r rest IH]; intros m0; simpl.
  - split; [now left|]. split; [lia|]. intros i [].
  - specialize (IH (Z.max m0 (Usage.LogID r))). simpl in IH.
    destruct IH as (Hin & Hle & Hub). split; [|split].
    + destruct Hin as [Hin|Hin]; [|right; right; exact Hin].
      rewrite Hin.
      destruct (Z.max_spec m0 (Usage.LogID r)) as [[_ E]|[_ E]];
        rewrite E; [right; left; reflexivity | left; reflexivity].
    + lia.
    + intros i [<-|Hi]; [lia|now apply Hub].
Qed.

Lemma max_LogID_spec : forall r0 rest m,
    In m (map Usage.LogID (r0 :: rest)) ->
    (forall i, In i (map Usage.LogID (r0 :: rest)) -> (i <= m)%Z) ->
    max_LogID r0 rest = m.
Proof.
  intros r0 rest m Hin Hub. unfold max_LogID.
  destruct (max_LogID_acc rest (Usage.LogID r0)) as (HM & Hle & HubM).
  simpl in HM, Hle, HubM.
  set (M := fold_left (fun m r => Z.max m (Usage.LogID r)) rest (Usage.LogID r0)) in *.
  assert (HMin : In M (map Usage.LogID (r0 :: rest))).
  { simpl. destruct HM as [->|HM]; [now left|now right]. }
  assert (H1 : (M <= m)%Z) by now apply Hub.
  assert (H2 : (m <= M)%Z).
  { simpl in Hin. destruct Hin as [<-|Hin]; [exact Hle|now apply HubM]. }
  lia.
Qed.

(** The vehicles frame after lines 267 to 269. *)
Lemma updated_vehicle : forall (vid : option string) (x : float) vehicles n r,
    nth_error vehicles n = Some r ->
    nth_error
      (map (fun r => if matches vid r then Vehicle.set_Status "Available" r else r)
         (map (fun r => if matches vid r then Vehicle.set_Odometer x r else r)
            vehicles)) n
    = Some (if matches vid r
            then Vehicle.set_Status "Available" (Vehicle.set_Odometer x r)
            else r).
Proof.
  intros vid x vehicles n r H. rewrite !nth_error_map, H. simpl.
  destruct (matches vid r) eqn:E.
  - assert (E' : matches vid (Vehicle.set_Odometer x r) = true) by exact E.
    now rewrite E'.
  - now rewrite E.
Qed.

(** C7.  A committed submission appends one row whose identifier is 1 on
    an empty ledger and otherwise one more than the greatest identifier
    in the ledger, whatever gaps the identifiers have. *)
Theorem new_identifier_is_max_plus_one :
  forall settings usage vehicles username f u v,
    submit2 settings usage vehicles username f = Committed u v ->
    exists new_row,
      u = (usage ++ [new_row])%list /\
      (usage = [] -> Usage.LogID new_row = 1%Z) /\
      (forall m, In m (map Usage.LogID usage) ->
                 (forall i, In i (map Usage.LogID usage) -> (i <= m)%Z) ->
                 Usage.LogID new_row = (m + 1)%Z).
Proof.
  intros settings usage vehicles username f u v H. unfold submit2 in H.
  destruct (_ && _) in H; [discriminate|].
  destruct (flag_daily_anomaly settings _) as [anomaly|e] in H; [|discriminate].
  injection H as <- _. eexists. split; [reflexivity|]. simpl. split.
  - intros ->. reflexivity.
  - intros m Hin Hub. destruct usage as [|r0 rest]; [destruct Hin|].
    now rewrite (max_LogID_spec r0 rest m Hin Hub).
Qed.

(** C8.  A committed submission leaves the vehicles frame with the same
    rows in the same places; a row whose [VehicleID] is the submitted one
    gets the submitted end reading as odometer and the status
    [Available], whatever its status was, and keeps its other fields;
    every other row is unchanged. *)
Theorem commit_updates_only_the_vehicle :
  forall settings usage vehicles username f u v,
    submit2 settings usage vehicles username f = Committed u v ->
    List.length v = List.length vehicles /\
    (forall n r, nth_error vehicles n = Some r ->
                 vehicle_id f = Some (Vehicle.VehicleID r) ->
                 exists r', nth_error v n = Some r' /\
                   Vehicle.Odometer r' = of_int (odo_end f) /\
                   Vehicle.Status r' = "Available" /\
                   Vehicle.VehicleID r' = Vehicle.VehicleID r /\
                   Vehicle.PlateNo r' = Vehicle.PlateNo r /\
                   Vehicle.Company r' = Vehicle.Company r /\
                   Vehicle.LastServiceOdo r' = Vehicle.LastServiceOdo r /\
                   Vehicle.LastServiceDate r' = Vehicle.LastServiceDate r /\
                   Vehicle.Notes r' = Vehicle.Notes r) /\
    (forall n r, nth_error vehicles n = Some r ->
                 vehicle_id f <> Some (Vehicle.VehicleID r) ->
                 nth_error v n = Some r).
Proof.
  intros settings usage vehicles username f u v H. unfold submit2 in H.
  destruct (_ && _) in H; [discriminate|].
  destruct (flag_daily_anomaly settings _) as [anomaly|e] in H; [|discriminate].
  injection H as _ <-. split; [now rewrite !length_map|]. split.
  - intros n r Hn Hid.
    rewrite (updated_vehicle _ _ _ _ _ Hn).
    assert (E : matches (vehicle_id f) r = true).
    { rewrite Hid. simpl. apply String.eqb_refl. }
    rewrite E. eexists. split; [reflexivity|]. simpl. tauto.
  - intros n r Hn Hid.
    rewrite (updated_vehicle _ _ _ _ _ Hn).
    assert (E : matches (vehicle_id f) r = false).
    { unfold matches. destruct (vehicle_id f) as [w|]; [|reflexivity].
      apply String.eqb_neq. intros Heq. apply Hid. now rewrite Heq. }
    now rewrite E.
Qed.

Lemma submit2_rejects : forall settings usage vehicles username f,
    negative_mileage_block settings = true ->
    (odo_end f < odo_start f)%Z ->
    submit2 settings usage vehicles username f = Rejected rejection.
Proof.
  intros settings usage vehicles username f Hb Hneg.
  unfold submit2. fold (negative_mileage_block settings). rewrite Hb.
  rewrite handler_distance.
  apply negative_distance_iff in Hneg. now rewrite Hneg.
Qed.

Lemma submit2_commits : forall settings usage vehicles username f l,
    negative_mileage_block settings = false \/ (odo_start f <= odo_end f)%Z ->
    daily_trip_limit settings = Ok l ->
    exists new_row,
      submit2 settings usage vehicles username f =
      Committed (usage ++ [new_row])%list
        (map (fun r => if matches (vehicle_id f) r
                       then Vehicle.set_Status "Available" r else r)
           (map (fun r => if matches (vehicle_id f) r
                          then Vehicle.set_Odometer (of_int (odo_end f)) r else r)
              vehicles)) /\
      Usage.Distance new_row = Fin (inject_Z (odo_end f) - inject_Z (odo_start f)).
Proof.
  intros settings usage vehicles username f l Hgate Hl.
  unfold submit2. fold (negative_mileage_block settings).
  rewrite handler_distance.
  assert (G : negative_mileage_block settings
              && flt (Fin (inject_Z (odo_end f) - inject_Z (odo_start f))) (Fin 0)
              = false).
  { destruct Hgate as [->|Hle]; [reflexivity|].
    apply andb_false_iff. right.
    destruct (flt _ _) eqn:E; [|reflexivity].
    apply negative_distance_iff in E. lia. }
  rewrite G. unfold flag_daily_anomaly.
  unfold daily_trip_limit in Hl. rewrite Hl. simpl.
  eexists. split; reflexivity.
Qed.

(** C1 (as amended).  With [NEGATIVE_MILEAGE_BLOCK] resolving to true, a
    submission whose distance is absent or negative is rejected and both
    sheets stay as they were.  With the block resolving to false and a
    [DAILY_TRIP_LIMIT] that [float] accepts, the same submission is
    committed: one row carrying the distance, negative or not, is
    appended, and the odometer of the submitted vehicle becomes the
    submitted end reading. *)
Theorem negative_mileage_gate : forall settings usage vehicles username f,
    let dist := compute_distance (Some (of_int (odo_start f)))
                                 (Some (of_int (odo_end f))) in
    let o := submit2 settings usage vehicles username f in
    (negative_mileage_block settings = true ->
     (dist = None \/ exists d, dist = Some (Fin d) /\ d < 0) ->
     o = Rejected rejection /\
     sheets_after usage vehicles o = (usage, vehicles)) /\
    (forall l,
        negative_mileage_block settings = false ->
        daily_trip_limit settings = Ok l ->
        exists new_row v,
          o = Committed (usage ++ [new_row])%list v /\
          sheets_after usage vehicles o = ((usage ++ [new_row])%list, v) /\
          Some (Usage.Distance new_row) = dist /\
          (forall n r, nth_error vehicles n = Some r ->
                       vehicle_id f = Some (Vehicle.VehicleID r) ->
                       exists r', nth_error v n = Some r' /\
                                  Vehicle.Odometer r' = of_int (odo_end f))).
Proof.
  intros settings usage vehicles username f dist o. split.
  - intros Hb Hd.
    assert (Hneg : (odo_end f < odo_start f)%Z).
    { unfold dist in Hd. rewrite handler_distance in Hd.
      destruct Hd as [Hd|(d & Hd & Hlt)]; [discriminate|].
      injection Hd as <-. apply negative_distance_iff. simpl.
      now apply Qlt_bool_iff. }
    unfold o. rewrite (submit2_rejects _ _ _ _ _ Hb Hneg). now split.
  - intros l Hb Hl.
    destruct (submit2_commits settings usage vehicles username f l
                (or_introl Hb) Hl) as (new_row & Hc & Hdist).
    exists new_row. eexists. unfold o. rewrite Hc.
    split; [reflexivity|]. split; [reflexivity|]. split.
    + unfold dist. rewrite handler_distance, Hdist. reflexivity.
    + intros n r Hn Hid. rewrite (updated_vehicle _ _ _ _ _ Hn).
      rewrite Hid. simpl. rewrite String.eqb_refl.
      eexists. split; reflexivity.
Qed.

(** C10 (as amended).  With the block enabled, a submission whose start
    and end readings are equal is never rejected, whatever else the
    settings hold, the test being a strict [dist < 0].  When
    [DAILY_TRIP_LIMIT] is a value [float] accepts it is committed: a row
    of distance zero is appended to the ledger and the odometer of the
    submitted vehicle is set to the end reading.  When the limit is a
    value [float] refuses, the handler fails with that exception. *)
Theorem zero_distance_is_committed : forall settings usage vehicles username f,
    odo_start f = odo_end f ->
    negative_mileage_block settings = true ->
    (forall msg, submit2 settings usage vehicles username f <> Rejected msg) /\
    (forall l, daily_trip_limit settings = Ok l ->
       exists new_row v,
         submit2 settings usage vehicles username f
         = Committed (usage ++ [new_row])%list v /\
         (exists q, Usage.Distance new_row = Fin q /\ q == 0) /\
         (forall n r, nth_error vehicles n = Some r ->
                      vehicle_id f = Some (Vehicle.VehicleID r) ->
                      exists r', nth_error v n = Some r' /\
                                 Vehicle.Odometer r' = of_int (odo_end f))) /\
    (forall e, daily_trip_limit settings = Raise e ->
               submit2 settings usage vehicles username f = Failed e).
Proof.
  intros settings usage vehicles username f Heq Hb.
  assert (Hle : (odo_start f <= odo_end f)%Z) by lia.
  assert (Hpass : flt (Fin (inject_Z (odo_end f) - inject_Z (odo_start f))) (Fin 0)
                  = false).
  { destruct (flt _ _) eqn:E; [|reflexivity].
    apply negative_distance_iff in E. lia. }
  split; [|split].
  - intros msg. unfold submit2. fold (negative_mileage_block settings).
    rewrite Hb, handler_distance, Hpass. cbn [andb].
    destruct (flag_daily_anomaly settings _); discriminate.
  - intros l Hl.
    destruct (submit2_commits settings usage vehicles username f l
                (or_intror Hle) Hl) as (new_row & Hc & Hdist).
    rewrite Hc. exists new_row. eexists. split; [reflexivity|]. split.
    + eexists. split; [exact Hdist|]. rewrite Heq. ring.
    + intros n r Hn Hid. rewrite (updated_vehicle _ _ _ _ _ Hn).
      rewrite Hid. simpl. rewrite String.eqb_refl.
      eexists. split; reflexivity.
  - intros e He. unfold submit2. fold (negative_mileage_block settings).
    rewrite Hb, handler_distance, Hpass. cbn [andb].
    unfold flag_daily_anomaly. unfold daily_trip_limit in He. rewrite He.
    reflexivity.
Qed.

(** *** Monthly aggregation *)

Lemma key_eqb_eq : forall a b, key_eqb a b = true <-> a = b.
Proof.
  intros [a1 a2] [b1 b2]. unfold key_eqb. simpl.
  rewrite andb_true_iff, !String.eqb_eq. split.
  - intros [-> ->]. reflexivity.
  - intros H. injection H as -> ->. now split.
Qed.

Lemma in_group_iff : forall k r, in_group k r = true <-> group_key r = Some k.
Proof.
  intros k r. unfold in_group. destruct (group_key r) as [k'|].
  - rewrite key_eqb_eq. split; congruence.
  - split; discriminate.
Qed.

Lemma group_keys_In : forall df k,
    In k (group_keys df) <-> exists r, In r df /\ group_key r = Some k.
Proof.
  induction df as [|r df IH]; intros k; simpl.
  - split; [intros []|intros (r & [] & _)].
  - destruct (group_key r) as [k'|] eqn:E; simpl; rewrite IH; split.
    + intros [<-|(r' & Hin & Hk)]; [exists r; auto|exists r'; auto].
    + intros (r' & [<-|Hin] & Hk); [left; congruence|right; exists r'; auto].
    + intros (r' & Hin & Hk). exists r'; auto.
    + intros (r' & [<-|Hin] & Hk); [congruence|exists r'; auto].
Qed.

Lemma sort_nil : KeySort.sort [] = [].
Proof. reflexivity. Qed.

(** The aggregate as one [map] over the sorted keys, empty frame included. *)
Lemma monthly_rows : forall usage_df,
    monthly_vehicle_distance usage_df =
    let df := map (fun r => (r, month_str (Usage.Date r))) usage_df in
    map (fun k =>
           mkMonthly (fst k) (snd k)
             (sum_min_count 1
                (map (fun r => Usage.Distance (fst r)) (filter (in_group k) df))))
        (KeySort.sort (nodup key_eq_dec (group_keys df))).
Proof.
  intros [|r rest]; [|reflexivity].
  reflexivity.
Qed.

Lemma monthly_keys : forall usage_df,
    map row_key (monthly_vehicle_distance usage_df) =
    KeySort.sort
      (nodup key_eq_dec
         (group_keys (map (fun r => (r, month_str (Usage.Date r))) usage_df))).
Proof.
  intros usage_df. rewrite monthly_rows. cbv zeta. rewrite map_map.
  unfold row_key. simpl.
  rewrite <- (map_id (KeySort.sort _)) at 2.
  apply map_ext. intros [v m]. reflexivity.
Qed.

Lemma group_filter : forall usage_df v m,
    map (fun r => Usage.Distance (fst r))
      (filter (in_group (v, m))
         (map (fun r => (r, month_str (Usage.Date r))) usage_df))
    = group_distances usage_df v m.
Proof.
  intros usage_df v m. unfold group_distances.
  induction usage_df as [|r rest IH]; simpl; [reflexivity|].
  unfold in_group at 1. unfold group_key. simpl.
  destruct (Usage.VehicleID r) as [v'|]; [|exact IH].
  unfold key_eqb. simpl.
  destruct ((v' =? v) && (month_str (Usage.Date r) =? m)); simpl;
    [f_equal|]; exact IH.
Qed.

Lemma present_nil_iff : forall xs, present xs = [] <-> (forall d, In d xs -> d = NaN).
Proof.
  induction xs as [|[|q] xs IH]; simpl.
  - split; [intros _ d []|reflexivity].
  - rewrite IH. split.
    + intros H d [<-|Hd]; [reflexivity|now apply H].
    + intros H d Hd. apply H. now right.
  - split; [discriminate|]. intros H.
    specialize (H (Fin q) (or_introl eq_refl)). discriminate.
Qed.

Lemma fold_Qplus : forall l a, fold_left Qplus l a == a + Qsum l.
Proof.
  induction l as [|x l IH]; intros a; simpl.
  - ring.
  - rewrite IH. ring.
Qed.

Lemma sum_min_count_1 : forall xs,
    ((forall d, In d xs -> d = NaN) -> sum_min_count 1 xs = NaN) /\
    ((exists q, In (Fin q) xs) ->
     exists s, sum_min_count 1 xs = Fin s /\ s == Qsum (present xs)).
Proof.
  intros xs. unfold sum_min_count. split.
  - intros H. apply present_nil_iff in H. now rewrite H.
  - intros (q & Hq).
    destruct (present xs) as [|y ys] eqn:E.
    + apply present_nil_iff with (d := Fin q) in E; [discriminate|exact Hq].
    + simpl Nat.ltb. cbv iota. eexists. split; [reflexivity|].
      rewrite fold_Qplus. ring.
Qed.





Lemma monthly_keys_NoDup : forall usage_df,
    NoDup (map row_key (monthly_vehicle_distance usage_df)).
Proof.
  intros usage_df. rewrite monthly_keys.
  set (ks := group_keys _).
  apply (Permutation_NoDup (KeySort.Permuted_sort (nodup key_eq_dec ks))).
  apply NoDup_nodup.
Qed.

Lemma monthly_keys_In : forall usage_df v m,
    In (v, m) (map row_key (monthly_vehicle_distance usage_df)) <->
    exists r, In r usage_df /\ Usage.VehicleID r = Some v /\
              month_str (Usage.Date r) = m.
Proof.
  intros usage_df v m. rewrite monthly_keys.
  set (ks := group_keys _).
  assert (P := KeySort.Permuted_sort (nodup key_eq_dec ks)).
  split.
  - intros H. apply (Permutation_in _ (Permutation_sym P)) in H.
    apply nodup_In in H. unfold ks in H. apply group_keys_In in H.
    destruct H as ([r mt] & Hin & Hk).
    apply in_map_iff in Hin. destruct Hin as (r0 & Heq & Hin).
    injection Heq as -> <-. unfold group_key in Hk. simpl in Hk.
    destruct (Usage.VehicleID r) as [v'|] eqn:E; [|discriminate].
    injection Hk as -> <-. exists r. auto.
  - intros (r & Hin & Hv & Hm).
    apply (Permutation_in _ P). apply nodup_In. unfold ks.
    apply group_keys_In. exists (r, month_str (Usage.Date r)). split.
    + apply in_map_iff. exists r. auto.
    + unfold group_key. simpl. rewrite Hv, Hm. reflexivity.
Qed.

(** The aggregate under either pandas, as one [map] over the sorted keys. *)
Lemma monthly_with_rows : forall b usage_df,
    monthly_vehicle_distance_with b usage_df =
    let df := map (fun r => (r, month_label b (Usage.Date r))) usage_df in
    map (fun k =>
           mkMonthly (fst k) (snd k)
             (sum_min_count 1
                (map (fun r => Usage.Distance (fst r))
                     (filter (in_labelled_group k) df))))
        (KeySort.sort (nodup key_eq_dec (labelled_keys df))).
Proof.
  intros b [|r rest]; reflexivity.
Qed.










(** The two behaviours of line 68 differ on a trip whose date cannot be
    read: under pandas 2 it is summed in a row of its vehicle under the
    text [NaT], under pandas 3 [groupby] drops it. *)
Lemma unreadable_date_depends_on_pandas : forall id v distance,
    monthly_vehicle_distance_with true [sample_trip id None (Some v) (Fin distance)]
    = [mkMonthly v "NaT" (Fin (0 + distance))] /\
    monthly_vehicle_distance_with false [sample_trip id None (Some v) (Fin distance)]
    = [].
Proof.
  intros id v distance. split.
  - unfold monthly_vehicle_distance_with. cbn [map]. cbn [labelled_keys].
    unfold labelled_key. cbn [fst snd sample_trip Usage.VehicleID Usage.Date month_label].
    cbn [nodup]. destruct (in_dec key_eq_dec (v, "NaT") []) as [[]|_].
    change (KeySort.sort [(v, "NaT")]) with [(v, "NaT")].
    cbn [map filter]. unfold in_labelled_group, labelled_key.
    cbn [fst snd sample_trip Usage.VehicleID Usage.Date month_label].
    rewrite (proj2 (key_eqb_eq (v, "NaT") (v, "NaT")) eq_refl).
    reflexivity.
  - reflexivity.
Qed.


Lemma present_skips_NaN : forall xs ys,
    present (xs ++ NaN :: ys) = present (xs ++ ys).
Proof.
  induction xs as [|[|q] xs IH]; intros ys; simpl; [reflexivity|apply IH|].
  now rewrite IH.
Qed.

Lemma monthly_pair : forall r1 r2 v,
    Usage.VehicleID r1 = Some v -> Usage.VehicleID r2 = Some v ->
    month_str (Usage.Date r1) = month_str (Usage.Date r2) ->
    monthly_vehicle_distance [r1; r2] =
    [mkMonthly v (month_str (Usage.Date r1))
       (sum_min_count 1 [Usage.Distance r1; Usage.Distance r2])].
Proof.
  intros r1 r2 v H1 H2 Hm. rewrite monthly_rows. cbv zeta.
  set (k := (v, month_str (Usage.Date r1))).
  set (p1 := (r1, month_str (Usage.Date r1))).
  set (p2 := (r2, month_str (Usage.Date r2))).
  change (map (fun r => (r, month_str (Usage.Date r))) [r1; r2]) with [p1; p2].
  assert (G1 : group_key p1 = Some k)
    by (unfold group_key, p1; simpl; now rewrite H1).
  assert (G2 : group_key p2 = Some k)
    by (unfold group_key, p2, k; simpl; now rewrite H2, Hm).
  assert (Ks : group_keys [p1; p2] = [k; k])
    by (cbn [group_keys]; now rewrite G1, G2).
  assert (N : nodup key_eq_dec [k; k] = [k]).
  { cbn [nodup].
    destruct (in_dec key_eq_dec k []) as [[]|_].
    destruct (in_dec key_eq_dec k [k]) as [_|C]; [reflexivity|].
    exfalso. apply C. now left. }
  rewrite Ks, N. change (KeySort.sort [k]) with [k].
  apply in_group_iff in G1, G2.
  cbn [map filter]. rewrite G1, G2. reflexivity.
Qed.

(** C4.  The distance of a row of the aggregate is the sum over the trips
    of its vehicle and month: trips with an absent distance are skipped,
    and the sum is absent only when every trip of the group has an absent
    distance.  Two trips of one vehicle and month with distances [a] and
    [b] give [a + b], and a trip with an absent distance next to a trip
    with distance [a] leaves [a]. *)
Theorem monthly_sum_ignores_absent :
    (forall usage_df g,
        In g (monthly_vehicle_distance usage_df) ->
        let ds := group_distances usage_df (VehicleID g) (Month g) in
        ds <> [] /\
        ((forall d, In d ds -> d = NaN) -> MonthlyDistance g = NaN) /\
        ((exists q, In (Fin q) ds) ->
         exists s, MonthlyDistance g = Fin s /\ s == Qsum (present ds))) /\
    (forall xs ys, present (xs ++ NaN :: ys) = present (xs ++ ys)) /\
    (forall r1 r2 v a b,
        Usage.VehicleID r1 = Some v -> Usage.VehicleID r2 = Some v ->
        month_str (Usage.Date r1) = month_str (Usage.Date r2) ->
        Usage.Distance r1 = Fin a -> Usage.Distance r2 = Fin b ->
        exists s, monthly_vehicle_distance [r1; r2]
                  = [mkMonthly v (month_str (Usage.Date r1)) (Fin s)] /\
                  s == a + b) /\
    (forall r1 r2 v a,
        Usage.VehicleID r1 = Some v -> Usage.VehicleID r2 = Some v ->
        month_str (Usage.Date r1) = month_str (Usage.Date r2) ->
        Usage.Distance r1 = Fin a -> Usage.Distance r2 = NaN ->
        exists s, (monthly_vehicle_distance [r1; r2]
                   = [mkMonthly v (month_str (Usage.Date r1)) (Fin s)] /\
                   monthly_vehicle_distance [r2; r1]
                   = [mkMonthly v (month_str (Usage.Date r2)) (Fin s)]) /\
                  s == a).
Proof.
  split; [|split; [exact present_skips_NaN|split]].
  - intros usage_df g Hg ds.
    assert (Hk : In (row_key g) (map row_key (monthly_vehicle_distance usage_df)))
      by now apply in_map.
    rewrite monthly_rows in Hg. cbv zeta in Hg.
    apply in_map_iff in Hg. destruct Hg as ([v m] & <- & Hin). simpl in *.
    rewrite group_filter. fold ds. split.
    + apply monthly_keys_In in Hk. destruct Hk as (r & Hr & Hv & Hm).
      assert (Hd : In (Usage.Distance r) ds).
      { unfold ds, group_distances. apply in_map. apply filter_In.
        split; [exact Hr|]. rewrite Hv, Hm, !String.eqb_refl. reflexivity. }
      intros E. rewrite E in Hd. destruct Hd.
    + apply sum_min_count_1.
  - intros r1 r2 v a b H1 H2 Hm Ha Hb.
    rewrite (monthly_pair r1 r2 v H1 H2 Hm), Ha, Hb.
    eexists. split; [reflexivity|]. simpl. ring.
  - intros r1 r2 v a H1 H2 Hm Ha Hb.
    rewrite (monthly_pair r1 r2 v H1 H2 Hm).
    rewrite (monthly_pair r2 r1 v H2 H1 (eq_sym Hm)), Ha, Hb.
    eexists. split; [split; reflexivity|]. simpl. ring.
Qed.

(** ** Further properties of the code *)

(** *** Settings *)

Lemma lstrip_head : forall s c r, lstrip s = String c r -> is_space c = false.
Proof.
  induction s as [|a s IH]; intros c r H; simpl in H; [discriminate|].
  destruct (is_space a) eqn:E; [now apply (IH c r)|].
  injection H as <- _. exact E.
Qed.

Lemma rstrip_head : forall c r,
    is_space c = false -> rstrip (String c r) = String c (rstrip r).
Proof.
  intros c r E. simpl. rewrite E. now destruct (rstrip r).
Qed.

Lemma rstrip_idem : forall s, rstrip (rstrip s) = rstrip s.
Proof.
  induction s as [|c r IH]; [reflexivity|]. simpl.
  destruct (rstrip r) as [|c' r'] eqn:E.
  - destruct (is_space c) eqn:Ec; [reflexivity|]. simpl. now rewrite Ec.
  - change (rstrip (String c (String c' r'))) with
      (match rstrip (String c' r') with
       | EmptyString => if is_space c then EmptyString else String c EmptyString
       | String a b => String c (String a b)
       end).
    now rewrite IH.
Qed.

Lemma strip_clean : forall s,
    lstrip (strip s) = strip s /\ rstrip (strip s) = strip s.
Proof.
  intros s. unfold strip. split; [|apply rstrip_idem].
  destruct (lstrip s) as [|c r] eqn:E; [reflexivity|].
  apply lstrip_head in E. rewrite (rstrip_head c r E). simpl. now rewrite E.
Qed.

Lemma coerce_cases : forall raw,
    let val := strip raw in
    (upper val = "TRUE" /\ coerce raw = VBool true) \/
    (upper val = "FALSE" /\ coerce raw = VBool false) \/
    (upper val <> "TRUE" /\ upper val <> "FALSE" /\
     ((exists x, py_float val = Some x /\ coerce raw = VFloat x) \/
      (py_float val = None /\ coerce raw = VStr val))).
Proof.
  intros raw val. unfold coerce. fold val.
  destruct (existsb (String.eqb (upper val)) ["TRUE"; "FALSE"]) eqn:E.
  - apply is_bool_text in E. destruct E as [E|E]; rewrite E; auto.
  - assert (N : ~ (upper val = "TRUE" \/ upper val = "FALSE"))
      by (rewrite <- is_bool_text, E; discriminate).
    right. right. split; [tauto|]. split; [tauto|].
    destruct (py_float val) as [x|]; [left; now exists x|right; auto].
Qed.

(** X1.  When several rows of the settings sheet carry the same key, the
    first of them decides: the rows after it, the rows with other keys
    before it and the default play no part. *)
Theorem get_setting_first_row_wins : forall before r after key default,
    (forall x, In x before -> Key x <> key) ->
    Key r = key ->
    get_setting (before ++ r :: after)%list key default = coerce (Value r) /\
    get_setting (before ++ r :: after)%list key default
    = get_setting [r] key VNone.
Proof.
  intros before r after key default Hb Hr.
  assert (F : forall rest, find (fun x => Key x =? key) (before ++ r :: rest)%list
                           = Some r).
  { intros rest. induction before as [|b before IH]; simpl.
    - now rewrite Hr, String.eqb_refl.
    - assert (E : (Key b =? key) = false)
        by (apply String.eqb_neq; apply Hb; left; reflexivity).
      rewrite E. apply IH. intros x Hx. apply Hb. now right. }
  rewrite !get_setting_find, F. split; [reflexivity|].
  simpl. now rewrite Hr, String.eqb_refl.
Qed.

(** X2.  For a key that is present [get_setting] returns a boolean, a number
    or a text, never the default.  A text it returns has no white space at
    either end, is not [TRUE] or [FALSE] in any case and is a text that
    [float] refuses, so a caller that converts it with [float] gets
    [ValueError]. *)
Theorem get_setting_returns_clean_values : forall settings key default r,
    find (fun x => Key x =? key) settings = Some r ->
    (exists b, get_setting settings key default = VBool b) \/
    (exists x, get_setting settings key default = VFloat x /\
               py_float (strip (Value r)) = Some x) \/
    (exists s, get_setting settings key default = VStr s /\
               lstrip s = s /\ rstrip s = s /\
               upper s <> "TRUE" /\ upper s <> "FALSE" /\
               py_float s = None /\
               to_float (get_setting settings key default) = Raise ValueError).
Proof.
  intros settings key default r Hf. rewrite get_setting_find, Hf.
  destruct (coerce_cases (Value r)) as [[_ H]|[[_ H]|(N1 & N2 & [(x & Hx & H)|[Hn H]])]];
    rewrite H.
  - left. now exists true.
  - left. now exists false.
  - right. left. now exists x.
  - right. right. exists (strip (Value r)).
    destruct (strip_clean (Value r)) as [L R].
    repeat split; trivial. simpl. now rewrite Hn.
Qed.

(** X3.  Reading a numeric setting, [float(get_setting(key, n))] with an
    integer default [n], fails with [ValueError] and with nothing else, and
    it fails exactly when the key is present with a value that, once
    trimmed, is neither [TRUE]/[FALSE] nor a text [float] accepts.  An
    absent key gives the default, and [TRUE] and [FALSE] count as 1 and 0. *)
Theorem numeric_setting_fails_on_malformed_text_only : forall settings key n,
    (forall e, to_float (get_setting settings key (VInt n)) = Raise e ->
               e = ValueError) /\
    (to_float (get_setting settings key (VInt n)) = Raise ValueError <->
     exists r, find (fun x => Key x =? key) settings = Some r /\
               upper (strip (Value r)) <> "TRUE" /\
               upper (strip (Value r)) <> "FALSE" /\
               py_float (strip (Value r)) = None) /\
    ((forall x, In x settings -> Key x <> key) ->
     to_float (get_setting settings key (VInt n)) = Ok (of_int n)) /\
    (forall r, find (fun x => Key x =? key) settings = Some r ->
               (upper (strip (Value r)) = "TRUE" ->
                to_float (get_setting settings key (VInt n)) = Ok (Fin 1)) /\
               (upper (strip (Value r)) = "FALSE" ->
                to_float (get_setting settings key (VInt n)) = Ok (Fin 0))).
Proof.
  intros settings key n. rewrite get_setting_find.
  destruct (find (fun x => Key x =? key) settings) as [r|] eqn:Hf.
  - destruct (coerce_cases (Value r))
      as [[U H]|[[U H]|(N1 & N2 & [(x & Hx & H)|[Hn H]])]]; rewrite H; simpl.
    + split; [discriminate|]. split; [|split].
      * split; [discriminate|]. intros (r' & Hr & N & _).
        injection Hr as <-. contradiction.
      * intros A. apply find_key_none in A. congruence.
      * intros r' Hr. injection Hr as <-. split; [reflexivity|].
        intros U'. rewrite U in U'. discriminate.
    + split; [discriminate|]. split; [|split].
      * split; [discriminate|]. intros (r' & Hr & _ & N & _).
        injection Hr as <-. contradiction.
      * intros A. apply find_key_none in A. congruence.
      * intros r' Hr. injection Hr as <-. split; [|reflexivity].
        intros U'. rewrite U in U'. discriminate.
    + split; [discriminate|]. split; [|split].
      * split; [discriminate|]. intros (r' & Hr & _ & _ & N).
        injection Hr as <-. congruence.
      * intros A. apply find_key_none in A. congruence.
      * intros r' Hr. injection Hr as <-. split; intros U; contradiction.
    + rewrite Hn. split; [intros e E; now injection E|]. split; [|split].
      * split; [|reflexivity]. intros _. now exists r.
      * intros A. apply find_key_none in A. congruence.
      * intros r' Hr. injection Hr as <-. split; intros U; contradiction.
  - simpl. split; [discriminate|]. split; [|split].
    + split; [discriminate|]. intros (r & Hr & _). discriminate.
    + reflexivity.
    + intros r Hr. discriminate.
Qed.

(** X4.  The negative-mileage block is on unless the settings sheet turns it
    off: [bool(get_setting("NEGATIVE_MILEAGE_BLOCK", True))] is false
    exactly when the first row with that key has a value that, once
    trimmed, is [FALSE] in any case, or a number equal to zero, or the
    empty text when [float] refuses it.  Any other text, [NaN] included,
    leaves the block on. *)
Theorem negative_mileage_block_off_iff : forall settings,
    negative_mileage_block settings = false <->
    exists r, find (fun x => Key x =? "NEGATIVE_MILEAGE_BLOCK") settings = Some r /\
              (upper (strip (Value r)) = "FALSE" \/
               (upper (strip (Value r)) <> "TRUE" /\
                upper (strip (Value r)) <> "FALSE" /\
                ((exists q, py_float (strip (Value r)) = Some (Fin q) /\ q == 0) \/
                 (py_float (strip (Value r)) = None /\ strip (Value r) = "")))).
Proof.
  intros settings. unfold negative_mileage_block. rewrite get_setting_find.
  destruct (find (fun x => Key x =? "NEGATIVE_MILEAGE_BLOCK") settings) as [r|] eqn:Hf.
  - destruct (coerce_cases (Value r))
      as [[U H]|[[U H]|(N1 & N2 & [(x & Hx & H)|[Hn H]])]]; rewrite H; simpl.
    + split; [discriminate|]. intros (r' & Hr & [F|(N & _)]);
        injection Hr as <-; [rewrite U in F; discriminate|contradiction].
    + split; [|reflexivity]. intros _. exists r. auto.
    + destruct x as [|q].
      * split; [discriminate|]. intros (r' & Hr & [F|(_ & _ & [(q & Hq & _)|[Hq _]])]);
          injection Hr as <-; [contradiction|congruence|congruence].
      * rewrite negb_false_iff, Qeq_bool_iff. split.
        -- intros Hq. exists r. split; [reflexivity|]. right.
           split; [exact N1|]. split; [exact N2|]. left. now exists q.
        -- intros (r' & Hr & [F|(_ & _ & [(q' & Hq & Hz)|[Hq _]])]);
             injection Hr as <-; [contradiction| |congruence].
           rewrite Hx in Hq. injection Hq as ->. exact Hz.
    + rewrite negb_false_iff, String.eqb_eq. split.
      * intros E. exists r. split; [reflexivity|]. right.
        split; [exact N1|]. split; [exact N2|]. right. now split.
      * intros (r' & Hr & [F|(_ & _ & [(q' & Hq & _)|[_ E]])]);
          injection Hr as <-; [contradiction|congruence|exact E].
  - simpl. split; [discriminate|]. intros (r & Hr & _). discriminate.
Qed.

(** *** Anomaly flags *)

(** X5.  The daily flag is monotone in the distance: once a distance is
    flagged [DAILY_HIGH], every distance that is not smaller is flagged
    too; and whenever the check returns, its answer is one of the two
    labels, the empty one or [DAILY_HIGH]. *)
Theorem flag_daily_anomaly_monotone : forall settings distance,
    (forall d d', distance = Some (Fin d) ->
                  flag_daily_anomaly settings distance = Ok "DAILY_HIGH" ->
                  d <= d' ->
                  flag_daily_anomaly settings (Some (Fin d')) = Ok "DAILY_HIGH") /\
    (forall s, flag_daily_anomaly settings distance = Ok s ->
               s = "" \/ s = "DAILY_HIGH").
Proof.
  intros settings distance. unfold flag_daily_anomaly. split.
  - intros d d' -> H Hle.
    destruct (to_float (get_setting settings "DAILY_TRIP_LIMIT" (VInt 1000)))
      as [lim|e]; simpl in *; [|discriminate].
    destruct (fgt (Fin d) lim) eqn:G; [|discriminate].
    apply fgt_iff in G. destruct G as (a & l & Ha & -> & Hlt).
    injection Ha as <-.
    assert (G' : fgt (Fin d') (Fin l) = true).
    { apply fgt_iff. exists d', l. repeat split. lra. }
    now rewrite G'.
  - intros s. destruct distance as [x|].
    + destruct (to_float (get_setting settings "DAILY_TRIP_LIMIT" (VInt 1000)))
        as [lim|e]; simpl; [|discriminate].
      destruct (fgt x lim); intros H; injection H as <-; auto.
    + intros H. injection H as <-. auto.
Qed.

(** X6.  The daily check raises exactly when the distance is not [None] and
    the conversion of [DAILY_TRIP_LIMIT] raises, with the same exception:
    an absent distance is answered before the limit is converted, a
    distance that is [NaN] is not. *)
Theorem flag_daily_anomaly_raises_iff : forall settings distance e,
    flag_daily_anomaly settings distance = Raise e <->
    (exists x, distance = Some x) /\ daily_trip_limit settings = Raise e.
Proof.
  intros settings distance e. unfold flag_daily_anomaly, daily_trip_limit.
  destruct distance as [x|].
  - destruct (to_float (get_setting settings "DAILY_TRIP_LIMIT" (VInt 1000)))
      as [lim|e']; simpl.
    + split; [discriminate|]. intros [_ H]. discriminate.
    + split.
      * intros H. injection H as ->. split; [now exists x|reflexivity].
      * intros [_ H]. injection H as ->. reflexivity.
  - split; [discriminate|]. intros [(x & H) _]. discriminate.
Qed.

(** X7.  [flag_monthly_anomalies] converts [MONTHLY_HIGH_JUMP] before it
    looks at the frame, so a value [float] refuses makes it raise even on
    an empty frame.  Otherwise it returns the rows it was given, in their
    order, each with a flag that is [MONTHLY_HIGH] exactly when the monthly
    distance is a number strictly above the threshold, and empty
    otherwise; the threshold is 4000 when the setting is absent. *)
Theorem flag_monthly_anomalies_marks_rows : forall settings monthly_df,
    (forall e, monthly_high_jump settings = Raise e ->
               flag_monthly_anomalies settings monthly_df = Raise e) /\
    (forall jump, monthly_high_jump settings = Ok jump ->
       exists out,
         flag_monthly_anomalies settings monthly_df = Ok out /\
         map fst out = monthly_df /\
         (forall g f, In (g, f) out ->
            (f = "" \/ f = "MONTHLY_HIGH") /\
            (f = "MONTHLY_HIGH" <->
             exists d j, MonthlyDistance g = Fin d /\ jump = Fin j /\ j < d))) /\
    ((forall x, In x settings -> Key x <> "MONTHLY_HIGH_JUMP") ->
     monthly_high_jump settings = Ok (Fin 4000)).
Proof.
  intros settings monthly_df. unfold monthly_high_jump, flag_monthly_anomalies.
  split; [|split].
  - intros e ->. reflexivity.
  - intros jump ->. simpl. eexists. split; [reflexivity|]. split.
    + rewrite map_map. simpl. apply map_id.
    + intros g f Hin. apply in_map_iff in Hin. destruct Hin as (g' & Heq & _).
      injection Heq as -> <-.
      destruct (notna (MonthlyDistance g) && fgt (MonthlyDistance g) jump) eqn:E.
      * split; [now right|]. split; [|reflexivity]. intros _.
        apply andb_true_iff in E. destruct E as [_ E].
        apply fgt_iff in E. destruct E as (d & j & Hd & Hj & Hlt).
        now exists d, j.
      * split; [now left|]. split; [discriminate|].
        intros (d & j & Hd & Hj & Hlt). rewrite Hd, Hj in E. simpl in E.
        apply Qlt_bool_iff in Hlt. unfold fgt, flt in E. congruence.
  - intros H. rewrite (get_setting_absent _ _ _ H). reflexivity.
Qed.

Lemma monthly_row_distance : forall usage g,
    In g (monthly_vehicle_distance usage) ->
    MonthlyDistance g
    = sum_min_count 1 (group_distances usage (VehicleID g) (Month g)).
Proof.
  intros usage g Hg. rewrite monthly_rows in Hg. cbv zeta in Hg.
  apply in_map_iff in Hg. destruct Hg as ([v m] & <- & _). simpl.
  apply f_equal. apply group_filter.
Qed.

Lemma sum_min_count_1_Fin : forall xs s,
    sum_min_count 1 xs = Fin s ->
    (exists q, In (Fin q) xs) /\ s == Qsum (present xs).
Proof.
  intros xs s H. unfold sum_min_count in H.
  destruct (present xs) as [|y ys] eqn:E; [discriminate|].
  simpl Nat.ltb in H. cbv iota in H. injection H as <-. split.
  - destruct (Forall_Exists_dec (fun d => d = NaN)
                (fun d => match d with
                          | NaN => left eq_refl
                          | Fin q => right (fun C : Fin q = NaN =>
                                              eq_ind (Fin q)
                                                (fun t => match t with
                                                          | Fin _ => True
                                                          | NaN => False
                                                          end) I NaN C)
                          end) xs) as [A|Ex].
    + rewrite Forall_forall in A. apply present_nil_iff in A. congruence.
    + apply Exists_exists in Ex. destruct Ex as ([|q] & Hin & Hn);
        [now elim Hn|now exists q].
  - rewrite fold_Qplus. cbn [Qsum]. ring.
Qed.

(** X8.  Lines 119 and 150 together: with a numeric threshold, the dashboard
    lists a vehicle and month under "Monthly anomalies" exactly when that
    group has a trip with a known distance and the sum of its known
    distances is strictly above [MONTHLY_HIGH_JUMP]; a group whose trips
    all lack a distance is never listed. *)
Theorem dashboard_lists_months_above_jump : forall settings usage j out,
    monthly_high_jump settings = Ok (Fin j) ->
    monthly settings usage = Ok out ->
    forall g f,
      In (g, f) (monthly_flags out) <->
      In g (monthly_vehicle_distance usage) /\ f = "MONTHLY_HIGH" /\
      (exists q, In (Fin q) (group_distances usage (VehicleID g) (Month g))) /\
      j < Qsum (present (group_distances usage (VehicleID g) (Month g))).
Proof.
  intros settings usage j out Hj Hm g f.
  unfold monthly, flag_monthly_anomalies in Hm.
  unfold monthly_high_jump in Hj. rewrite Hj in Hm. cbn [bind] in Hm.
  injection Hm as <-. unfold monthly_flags. rewrite filter_In, in_map_iff.
  split.
  - intros [(g' & Heq & Hg) Hne]. injection Heq as -> <-.
    split; [exact Hg|].
    assert (Hrow := monthly_row_distance usage g Hg).
    unfold notna, fgt, flt in *. cbn [snd] in Hne.
    destruct (MonthlyDistance g) as [|d]; [discriminate Hne|].
    cbn [andb] in *.
    destruct (Qlt_bool j d) eqn:El; [|discriminate Hne].
    split; [reflexivity|].
    apply Qlt_bool_iff in El. symmetry in Hrow.
    apply sum_min_count_1_Fin in Hrow. destruct Hrow as [Hex Hs].
    split; [exact Hex|]. now rewrite <- Hs.
  - intros (Hg & -> & Hex & Hlt).
    destruct (proj2 (sum_min_count_1 _) Hex) as (s & Hs & Hq).
    rewrite <- (monthly_row_distance usage g Hg) in Hs.
    assert (El : Qlt_bool j s = true) by (apply Qlt_bool_iff; now rewrite Hq).
    split; [|reflexivity]. exists g. split; [|exact Hg].
    unfold notna, fgt, flt. rewrite Hs. cbn [andb]. now rewrite El.
Qed.

(** *** Order of the aggregate *)

Lemma ascii_compare_lt_trans : forall a b c,
    Ascii.compare a b = Lt -> Ascii.compare b c = Lt -> Ascii.compare a c = Lt.
Proof.
  unfold Ascii.compare. intros a b c H1 H2.
  rewrite N.compare_lt_iff in *. lia.
Qed.

Lemma string_compare_lt_trans : forall a b c,
    String.compare a b = Lt -> String.compare b c = Lt -> String.compare a c = Lt.
Proof.
  induction a as [|x a IH]; intros [|y b] [|z c] H1 H2; simpl in *;
    try discriminate; try reflexivity.
  destruct (Ascii.compare x y) eqn:E1; try discriminate.
  - apply Ascii.compare_eq_iff in E1. subst y.
    destruct (Ascii.compare x z); try discriminate; [|reflexivity].
    now apply (IH b c).
  - destruct (Ascii.compare y z) eqn:E2; try discriminate.
    + apply Ascii.compare_eq_iff in E2. subst z. now rewrite E1.
    + now rewrite (ascii_compare_lt_trans x y z E1 E2).
Qed.

Lemma string_compare_refl : forall a, String.compare a a = Eq.
Proof.
  induction a as [|x a IH]; [reflexivity|]. simpl.
  unfold Ascii.compare. now rewrite N.compare_refl.
Qed.

Lemma string_leb_trans : forall a b c,
    String.leb a b = true -> String.leb b c = true -> String.leb a c = true.
Proof.
  unfold String.leb. intros a b c H1 H2.
  destruct (String.compare a b) eqn:E1; try discriminate.
  - apply String.compare_eq_iff in E1. now subst b.
  - destruct (String.compare b c) eqn:E2; try discriminate.
    + apply String.compare_eq_iff in E2. subst c. now rewrite E1.
    + now rewrite (string_compare_lt_trans a b c E1 E2).
Qed.

Lemma key_leb_trans : forall a b c,
    KeyOrder.leb a b = true -> KeyOrder.leb b c = true -> KeyOrder.leb a c = true.
Proof.
  intros [a1 a2] [b1 b2] [c1 c2]. unfold KeyOrder.leb. simpl. intros H1 H2.
  destruct (String.compare a1 b1) eqn:E1; try discriminate.
  - apply String.compare_eq_iff in E1. subst b1.
    destruct (String.compare a1 c1); try discriminate; [|reflexivity].
    now apply (string_leb_trans a2 b2 c2).
  - destruct (String.compare b1 c1) eqn:E2; try discriminate.
    + apply String.compare_eq_iff in E2. subst c1. now rewrite E1.
    + now rewrite (string_compare_lt_trans a1 b1 c1 E1 E2).
Qed.

Lemma key_leb_antisym : forall a b,
    KeyOrder.leb a b = true -> KeyOrder.leb b a = true -> a = b.
Proof.
  intros [a1 a2] [b1 b2]. unfold KeyOrder.leb. simpl. intros H1 H2.
  rewrite (String.compare_antisym b1 a1) in H2.
  destruct (String.compare a1 b1) eqn:E; simpl in H2; try discriminate.
  apply String.compare_eq_iff in E. subst b1.
  now rewrite (String.leb_antisym a2 b2 H1 H2).
Qed.

Lemma key_sort_strongly_sorted : forall l,
    StronglySorted (fun a b => KeyOrder.leb a b = true) (KeySort.sort l).
Proof.
  intros l.
  assert (S := KeySort.StronglySorted_sort l).
  apply S. intros a b c. apply key_leb_trans.
Qed.

Lemma strongly_sorted_split : forall (A : Type) (R : A -> A -> Prop) l1 x l2 y l3,
    StronglySorted R (l1 ++ x :: l2 ++ y :: l3)%list -> R x y.
Proof.
  intros A R l1 x l2 y l3 H. induction l1 as [|a l1 IH]; simpl in H.
  - apply StronglySorted_inv in H. destruct H as [_ H].
    rewrite Forall_forall in H. apply H. apply in_or_app. right. now left.
  - apply StronglySorted_inv in H. destruct H as [H _]. now apply IH.
Qed.

Lemma NaT_after_period : forall d, String.ltb "NaT" (period_str d) = false.
Proof.
  intros d.
  assert (E : exists rest,
             period_str d
             = String (digit_char ((year d / 100 / 10) mod 10)) rest)
    by (eexists; reflexivity).
  destruct E as (rest & ->). unfold String.ltb. cbn [String.compare].
  assert (B := Z.mod_pos_bound (year d / 100 / 10) 10 eq_refl).
  assert (C : Ascii.compare "N" (digit_char ((year d / 100 / 10) mod 10)) = Gt).
  { unfold Ascii.compare, digit_char. rewrite N_ascii_embedding by lia.
    change (N_of_ascii "N") with 78%N. apply N.compare_gt_iff. lia. }
  now rewrite C.
Qed.

(** X9.  The rows of the monthly aggregate come in ascending order of
    vehicle and, for one vehicle, in ascending order of month text; no two
    rows that follow one another in the frame, at any distance, break
    this order.  In particular the [NaT] row of a vehicle never comes
    before one of its dated rows. *)
Theorem monthly_rows_are_sorted : forall usage before g1 between g2 after,
    monthly_vehicle_distance usage
    = (before ++ g1 :: between ++ g2 :: after)%list ->
    String.leb (VehicleID g1) (VehicleID g2) = true /\
    (VehicleID g1 = VehicleID g2 ->
     String.ltb (Month g1) (Month g2) = true /\
     forall d, Month g2 = month_str (Some d) -> Month g1 <> "NaT").
Proof.
  intros usage before g1 between g2 after Hout.
  assert (Hk : map row_key (monthly_vehicle_distance usage)
               = (map row_key before ++ row_key g1 :: map row_key between
                    ++ row_key g2 :: map row_key after)%list).
  { rewrite Hout, map_app. simpl. now rewrite map_app. }
  assert (Hs : StronglySorted (fun a b => KeyOrder.leb a b = true)
                 (map row_key (monthly_vehicle_distance usage)))
    by (rewrite monthly_keys; apply key_sort_strongly_sorted).
  assert (Hn := monthly_keys_NoDup usage).
  rewrite Hk in Hs, Hn.
  apply strongly_sorted_split in Hs.
  apply NoDup_remove_2 in Hn.
  assert (Hne : row_key g1 <> row_key g2).
  { intros E. apply Hn. apply in_or_app. right. apply in_or_app. right.
    left. now symmetry. }
  unfold KeyOrder.leb, row_key in *. simpl in Hs. split.
  - unfold String.leb. now destruct (String.compare (VehicleID g1) (VehicleID g2)).
  - intros Hv. rewrite Hv, string_compare_refl in Hs.
    assert (Hlt : String.ltb (Month g1) (Month g2) = true).
    { unfold String.leb in Hs. unfold String.ltb.
      destruct (String.compare (Month g1) (Month g2)) eqn:E;
        [|reflexivity|discriminate].
      apply String.compare_eq_iff in E. elim Hne. now rewrite Hv, E. }
    split; [exact Hlt|].
    intros d Hd Hnat. rewrite Hd, Hnat in Hlt.
    change (month_str (Some d)) with (period_str d) in Hlt.
    rewrite NaT_after_period in Hlt. discriminate.
Qed.

(** *** Order of the trip records *)

Lemma Permutation_filter_compat : forall (A : Type) (f : A -> bool) l l',
    Permutation l l' -> Permutation (filter f l) (filter f l').
Proof.
  intros A f l l' P. induction P as [|x l l' P IH|x y l|l l' l'' P1 IH1 P2 IH2]; simpl.
  - constructor.
  - destruct (f x); [now constructor|exact IH].
  - destruct (f x), (f y); try apply Permutation_refl. apply perm_swap.
  - now apply Permutation_trans with (filter f l').
Qed.

Lemma Permutation_present : forall xs ys,
    Permutation xs ys -> Permutation (present xs) (present ys).
Proof.
  intros xs ys P. induction P as [|x l l' P IH|x y l|l l' l'' P1 IH1 P2 IH2]; simpl.
  - constructor.
  - destruct x; [exact IH|now constructor].
  - destruct x, y; try apply Permutation_refl. apply perm_swap.
  - now apply Permutation_trans with (present l').
Qed.

Lemma sum_min_count_absent_Permutation : forall xs ys,
    Permutation xs ys ->
    (sum_min_count 1 xs = NaN <-> sum_min_count 1 ys = NaN).
Proof.
  intros xs ys P. apply Permutation_present in P. unfold sum_min_count.
  destruct (present xs) as [|a xs'] eqn:Ex.
  - apply Permutation_nil in P. rewrite P. reflexivity.
  - destruct (present ys) as [|b ys'] eqn:Ey.
    + apply Permutation_sym, Permutation_nil in P. discriminate.
    + simpl Nat.ltb. cbv iota. split; discriminate.
Qed.

Lemma sorted_Permutation_eq : forall l1 l2 : list key,
    StronglySorted (fun a b => KeyOrder.leb a b = true) l1 ->
    StronglySorted (fun a b => KeyOrder.leb a b = true) l2 ->
    Permutation l1 l2 -> l1 = l2.
Proof.
  induction l1 as [|a l1 IH]; intros l2 S1 S2 P.
  - apply Permutation_nil in P. now subst.
  - destruct l2 as [|b l2]; [apply Permutation_sym, Permutation_nil in P; discriminate|].
    apply StronglySorted_inv in S1. destruct S1 as [S1 F1].
    apply StronglySorted_inv in S2. destruct S2 as [S2 F2].
    rewrite Forall_forall in F1, F2.
    assert (E : a = b).
    { assert (Ha : In a (b :: l2)) by (apply (Permutation_in _ P); now left).
      assert (Hb : In b (a :: l1))
        by (apply (Permutation_in _ (Permutation_sym P)); now left).
      destruct Ha as [->|Ha]; [reflexivity|].
      destruct Hb as [->|Hb]; [reflexivity|].
      apply key_leb_antisym; [now apply F1|now apply F2]. }
    subst b. f_equal. apply IH; trivial.
    now apply Permutation_cons_inv with a.
Qed.

Lemma labelled_keys_Permutation : forall df df',
    Permutation df df' -> Permutation (labelled_keys df) (labelled_keys df').
Proof.
  intros df df' P. induction P as [|x l l' P IH|x y l|l l' l'' P1 IH1 P2 IH2]; simpl.
  - constructor.
  - destruct (labelled_key x); [now constructor|exact IH].
  - destruct (labelled_key x), (labelled_key y); try apply Permutation_refl.
    apply perm_swap.
  - now apply Permutation_trans with (labelled_keys l').
Qed.

Lemma labelled_filter : forall b usage_df v m,
    map (fun r => Usage.Distance (fst r))
      (filter (in_labelled_group (v, m))
         (map (fun r => (r, month_label b (Usage.Date r))) usage_df))
    = labelled_distances b usage_df v m.
Proof.
  intros b usage_df v m. unfold labelled_distances.
  induction usage_df as [|r rest IH]; [reflexivity|].
  cbn [map filter]. unfold in_labelled_group at 1. unfold labelled_key.
  cbn [fst snd].
  destruct (Usage.VehicleID r) as [v'|]; [|exact IH].
  destruct (month_label b (Usage.Date r)) as [m'|]; [|exact IH].
  unfold key_eqb. cbn [fst snd].
  destruct ((v' =? v) && (m' =? m)); cbn [map]; [f_equal|]; exact IH.
Qed.

(** X11.  The groups of the monthly aggregate do not depend on the order of
    the trip records, under either pandas: two frames with the same rows
    in different orders give aggregates with the same vehicles and months
    in the same order.  Each monthly distance is the sum of the known
    distances of its group, taken in the order of its own frame; the two
    groups hold the same distances, and a monthly distance is missing in
    one aggregate exactly when it is missing in the other.  Nothing is
    said on the two sums being the same number. *)
Theorem monthly_ignores_row_order : forall b usage usage',
    Permutation usage usage' ->
    Forall2 (fun g g' =>
               VehicleID g = VehicleID g' /\ Month g = Month g' /\
               MonthlyDistance g
               = sum_min_count 1
                   (labelled_distances b usage (VehicleID g) (Month g)) /\
               MonthlyDistance g'
               = sum_min_count 1
                   (labelled_distances b usage' (VehicleID g) (Month g)) /\
               Permutation (labelled_distances b usage (VehicleID g) (Month g))
                           (labelled_distances b usage' (VehicleID g) (Month g)) /\
               (MonthlyDistance g = NaN <-> MonthlyDistance g' = NaN))
      (monthly_vehicle_distance_with b usage)
      (monthly_vehicle_distance_with b usage').
Proof.
  intros b usage usage' P. rewrite !monthly_with_rows. cbv zeta.
  set (df := map (fun r => (r, month_label b (Usage.Date r))) usage).
  set (df' := map (fun r => (r, month_label b (Usage.Date r))) usage').
  assert (Pd : Permutation df df') by now apply Permutation_map.
  assert (Ek : KeySort.sort (nodup key_eq_dec (labelled_keys df))
               = KeySort.sort (nodup key_eq_dec (labelled_keys df'))).
  { apply sorted_Permutation_eq; try apply key_sort_strongly_sorted.
    apply Permutation_trans
      with (nodup key_eq_dec (labelled_keys df));
      [apply Permutation_sym, KeySort.Permuted_sort|].
    apply Permutation_trans
      with (nodup key_eq_dec (labelled_keys df'));
      [|apply KeySort.Permuted_sort].
    apply NoDup_Permutation; try apply NoDup_nodup.
    intros k. rewrite !nodup_In. split; apply Permutation_in.
    - now apply labelled_keys_Permutation.
    - now apply Permutation_sym, labelled_keys_Permutation. }
  rewrite <- Ek. clear Ek.
  assert (Pg : forall v m, Permutation (labelled_distances b usage v m)
                                       (labelled_distances b usage' v m)).
  { intros v m. unfold labelled_distances. apply Permutation_map.
    now apply Permutation_filter_compat. }
  induction (KeySort.sort (nodup key_eq_dec (labelled_keys df))) as [|[v m] ks IH];
    cbn [map]; constructor; [|exact IH].
  cbn [VehicleID Month MonthlyDistance fst snd]. unfold df, df'.
  rewrite !labelled_filter.
  split; [reflexivity|]. split; [reflexivity|]. split; [reflexivity|].
  split; [reflexivity|]. split; [apply Pg|].
  apply sum_min_count_absent_Permutation, Pg.
Qed.

(** *** The mileage chart *)

Lemma has_duplicates_false : forall l, NoDup l -> has_duplicates l = false.
Proof.
  induction l as [|k l IH]; intros H; [reflexivity|].
  inversion H as [|? ? Hnot Hn]; subst. simpl. rewrite (IH Hn), orb_false_r.
  destruct (existsb (key_eqb k) l) eqn:E; [|reflexivity].
  apply existsb_exists in E. destruct E as (k' & Hin & Hk).
  apply key_eqb_eq in Hk. subst k'. contradiction.
Qed.

Lemma NoDup_map_injective : forall (A B : Type) (f : A -> B) l x y,
    NoDup (map f l) -> In x l -> In y l -> f x = f y -> x = y.
Proof.
  intros A B f l x y. induction l as [|a l IH]; intros Hn Hx Hy E; [destruct Hx|].
  simpl in Hn. inversion Hn as [|? ? Hnot Hn']; subst.
  destruct Hx as [->|Hx], Hy as [->|Hy]; trivial.
  - elim Hnot. rewrite E. now apply in_map.
  - elim Hnot. rewrite <- E. now apply in_map.
  - now apply IH.
Qed.

Lemma flagged_rows : forall settings monthly_df out,
    flag_monthly_anomalies settings monthly_df = Ok out ->
    map fst out = monthly_df.
Proof.
  intros settings monthly_df out H. unfold flag_monthly_anomalies in H.
  destruct (to_float (get_setting settings "MONTHLY_HIGH_JUMP" (VInt 4000)))
    as [jump|e]; [|discriminate].
  cbn [bind] in H. injection H as <-. rewrite map_map. apply map_id.
Qed.

(** X12.  The mileage chart of the dashboard can always be built from the
    flagged monthly aggregate: [pivot] never meets a (month, vehicle) pair
    twice, so it does not raise.  Every month and vehicle of the aggregate
    has its row and column, the chart shows the monthly distance of a
    group, or 0 when all its distances are absent, and it shows 0 for a
    month and vehicle without trips; no cell is left [NaN]. *)
Theorem mileage_chart_is_always_built : forall settings usage out,
    monthly settings usage = Ok out ->
    exists p,
      pivot_chart out = Ok p /\
      (forall g, In g (monthly_vehicle_distance usage) ->
                 In (Month g) (index p) /\ In (VehicleID g) (columns p) /\
                 cell_of out (Month g) (VehicleID g) = MonthlyDistance g) /\
      (forall m v, (forall g, In g (monthly_vehicle_distance usage) ->
                              ~ (Month g = m /\ VehicleID g = v)) ->
                   fillna 0 (cell_of out m v) = Fin 0) /\
      cells p = map (fun m => map (fun v => fillna 0 (cell_of out m v)) (columns p))
                    (index p) /\
      Forall (Forall (fun x => x <> NaN)) (cells p).
Proof.
  intros settings usage out Hm. unfold monthly in Hm.
  assert (Hrows := flagged_rows _ _ _ Hm).
  assert (Hn := monthly_keys_NoDup usage). rewrite <- Hrows in Hn.
  rewrite map_map in Hn.
  assert (Hd : has_duplicates (map (fun g => (Month (fst g), VehicleID (fst g))) out)
               = false).
  { apply has_duplicates_false.
    assert (E : map (fun g : MonthlyRow * string => (Month (fst g), VehicleID (fst g))) out
                = map (fun k : key => (snd k, fst k))
                    (map (fun g : MonthlyRow * string => row_key (fst g)) out))
      by (rewrite map_map; reflexivity).
    rewrite E. apply Finite.Injective_map_NoDup; [|exact Hn].
    intros [a b] [c d] H. simpl in H. now injection H as -> ->. }
  unfold pivot_chart. rewrite Hd. eexists. split; [reflexivity|]. simpl.
  assert (Hcell : forall g, In g (monthly_vehicle_distance usage) ->
                            cell_of out (Month g) (VehicleID g) = MonthlyDistance g).
  { intros g Hg. rewrite <- Hrows in Hg. apply in_map_iff in Hg.
    destruct Hg as (gf & <- & Hgf). unfold cell_of.
    destruct (find _ out) as [gf'|] eqn:F.
    - apply find_some in F. destruct F as [Hin F].
      apply andb_true_iff in F. rewrite !String.eqb_eq in F. destruct F as [F1 F2].
      assert (E : gf' = gf).
      { apply (NoDup_map_injective _ _ (fun x : MonthlyRow * string => row_key (fst x))
                 out gf' gf Hn Hin Hgf).
        unfold row_key. now rewrite F1, F2. }
      now rewrite E.
    - apply (find_none _ _ F) in Hgf. simpl in Hgf.
      now rewrite !String.eqb_refl in Hgf. }
  split; [|split; [|split; [reflexivity|]]].
  - intros g Hg. split; [|split; [|now apply Hcell]].
    + apply (Permutation_in _ (TextSort.Permuted_sort _)). apply nodup_In.
      rewrite <- Hrows in Hg. apply in_map_iff in Hg.
      destruct Hg as (gf & <- & Hgf). apply in_map_iff. now exists gf.
    + apply (Permutation_in _ (TextSort.Permuted_sort _)). apply nodup_In.
      rewrite <- Hrows in Hg. apply in_map_iff in Hg.
      destruct Hg as (gf & <- & Hgf). apply in_map_iff. now exists gf.
  - intros m v Hno. unfold cell_of.
    destruct (find _ out) as [gf|] eqn:F; [|reflexivity].
    apply find_some in F. destruct F as [Hin F].
    apply andb_true_iff in F. rewrite !String.eqb_eq in F.
    elim (Hno (fst gf)); [|exact F].
    rewrite <- Hrows. now apply in_map.
  - apply Forall_forall. intros row Hrow. apply in_map_iff in Hrow.
    destruct Hrow as (m & <- & _). apply Forall_forall. intros x Hx.
    apply in_map_iff in Hx. destruct Hx as (v & <- & _).
    now destruct (cell_of out m v).
Qed.

(** *** Service alerts, continued *)

Lemma service_alerts_In : forall settings vehicles interval,
    service_interval settings = Ok interval ->
    exists rows,
      service_alerts settings vehicles = Ok rows /\
      (forall x, In x rows -> snd x = true) /\
      (forall r, In r (map fst rows) <->
                 In r vehicles /\
                 fge (fsub (Vehicle.Odometer r) (Vehicle.LastServiceOdo r)) interval
                 = true).
Proof.
  intros settings vehicles interval Hi. unfold service_interval in Hi.
  unfold service_alerts. rewrite Hi. cbn [bind]. eexists.
  split; [reflexivity|]. split.
  - intros x Hx. now apply filter_In in Hx.
  - intros r. rewrite in_map_iff. split.
    + intros ([r' b] & Hfst & Hin). simpl in Hfst. subst r'.
      apply filter_In in Hin. destruct Hin as [Hin Hb]. simpl in Hb. subst b.
      apply in_map_iff in Hin. destruct Hin as (r0 & Heq & Hin0).
      injection Heq as -> Hge. now split.
    + intros [Hin Hge]. exists (r, true). split; [reflexivity|].
      apply filter_In. split; [|reflexivity].
      apply in_map_iff. exists r. split; [now rewrite Hge|exact Hin].
Qed.

(** X13.  Service alerts are monotone in the odometer: a vehicle that is
    in the alert set stays in it when its odometer reading grows and its
    last-service reading is unchanged, whatever else changes in the
    vehicles frame.  Every row of the alert set carries
    [NeedService = True]. *)
Theorem service_alerts_monotone :
  forall settings vehicles vehicles' rows r r' o o',
    service_alerts settings vehicles = Ok rows ->
    In r (map fst rows) ->
    In r' vehicles' ->
    Vehicle.Odometer r = Fin o -> Vehicle.Odometer r' = Fin o' -> o <= o' ->
    Vehicle.LastServiceOdo r' = Vehicle.LastServiceOdo r ->
    (forall x, In x rows -> snd x = true) /\
    exists rows', service_alerts settings vehicles' = Ok rows' /\
                  In r' (map fst rows').
Proof.
  intros settings vehicles vehicles' rows r r' o o' Hs Hr Hr' Ho Ho' Hle Hl.
  destruct (service_interval settings) as [interval|e] eqn:Hi.
  - destruct (service_alerts_In settings vehicles interval Hi) as (rs & E & Hflag & Hmem).
    rewrite Hs in E. injection E as <-.
    destruct (service_alerts_In settings vehicles' interval Hi) as (rs' & E' & _ & Hmem').
    split; [exact Hflag|]. exists rs'. split; [exact E'|].
    apply Hmem'. split; [exact Hr'|].
    apply Hmem in Hr. destruct Hr as [_ Hge].
    apply fge_iff in Hge. destruct Hge as (a & i & Ha & -> & Hia).
    rewrite Ho in Ha. rewrite Ho', Hl.
    destruct (Vehicle.LastServiceOdo r) as [|l]; [discriminate|].
    simpl in Ha. injection Ha as <-. simpl. apply Qle_bool_iff. lra.
  - unfold service_interval in Hi. unfold service_alerts in Hs.
    rewrite Hi in Hs. discriminate.
Qed.

(** *** The submit handler, continued *)

Lemma submit2_unfold : forall settings usage vehicles username f,
    submit2 settings usage vehicles username f =
    if negative_mileage_block settings && (odo_end f <? odo_start f)%Z
    then Rejected rejection
    else
      match flag_daily_anomaly settings
              (Some (Fin (inject_Z (odo_end f) - inject_Z (odo_start f)))) with
      | Raise e => Failed e
      | Ok anomaly =>
          Committed
            (usage ++ [Usage.mk (new_LogID usage) (Some (date_ f)) (user f)
                         (company f) (vehicle_id f) (plate f)
                         (of_int (odo_start f)) (of_int (odo_end f))
                         (Fin (inject_Z (odo_end f) - inject_Z (odo_start f)))
                         (purpose f) anomaly "" username])%list
            (returned_vehicles f vehicles)
      end.
Proof.
  intros settings usage vehicles username f. unfold submit2.
  fold (negative_mileage_block settings). rewrite handler_distance.
  assert (E : flt (Fin (inject_Z (odo_end f) - inject_Z (odo_start f))) (Fin 0)
              = (odo_end f <? odo_start f)%Z).
  { apply eq_true_iff_eq. rewrite negative_distance_iff, Z.ltb_lt. reflexivity. }
  rewrite E. reflexivity.
Qed.

Lemma flag_daily_anomaly_result : forall settings x,
    flag_daily_anomaly settings (Some x)
    = bind (daily_trip_limit settings)
        (fun l => Ok (if fgt x l then "DAILY_HIGH" else "")).
Proof. reflexivity. Qed.

(** X14.  The handler has three outcomes and the settings and the form
    decide between them: it rejects, with the one message of line 257,
    exactly when the block is on and the end reading is below the start
    reading; otherwise it fails with the exception of the limit conversion
    exactly when [DAILY_TRIP_LIMIT] cannot be converted; otherwise it
    commits.  Equal readings are never rejected. *)
Theorem submit2_outcomes : forall settings usage vehicles username f,
    (forall msg, submit2 settings usage vehicles username f = Rejected msg <->
                 msg = rejection /\ negative_mileage_block settings = true /\
                 (odo_end f < odo_start f)%Z) /\
    (forall e, submit2 settings usage vehicles username f = Failed e <->
               (negative_mileage_block settings = false \/
                (odo_start f <= odo_end f)%Z) /\
               daily_trip_limit settings = Raise e) /\
    ((exists u v, submit2 settings usage vehicles username f = Committed u v) <->
     (negative_mileage_block settings = false \/ (odo_start f <= odo_end f)%Z) /\
     exists l, daily_trip_limit settings = Ok l).
Proof.
  intros settings usage vehicles username f. rewrite submit2_unfold.
  rewrite flag_daily_anomaly_result.
  assert (G : negative_mileage_block settings && (odo_end f <? odo_start f)%Z = false
              <-> negative_mileage_block settings = false
                  \/ (odo_start f <= odo_end f)%Z).
  { rewrite andb_false_iff, Z.ltb_ge. reflexivity. }
  destruct (negative_mileage_block settings && (odo_end f <? odo_start f)%Z) eqn:Gate.
  - (* line 257 *)
    assert (Hclosed : ~ (negative_mileage_block settings = false
                         \/ (odo_start f <= odo_end f)%Z))
      by (intros C; apply G in C; discriminate C).
    apply andb_true_iff in Gate. destruct Gate as [B L]. apply Z.ltb_lt in L.
    split; [|split].
    + intros msg. split.
      * intros H. injection H as <-. auto.
      * intros (-> & _). reflexivity.
    + intros e. split; [discriminate|]. intros [C _]. contradiction.
    + split; [intros (u & v & H); discriminate H|]. intros [C _]. contradiction.
  - (* lines 259 to 274 *)
    assert (Hopen := proj1 G eq_refl).
    destruct (daily_trip_limit settings) as [l|e'] eqn:D; cbn [bind].
    + split; [|split].
      * intros msg. split; [discriminate|]. intros (_ & B & L).
        destruct Hopen as [C|C]; [congruence|lia].
      * intros e. split; [discriminate|]. intros [_ C]. discriminate C.
      * split; [|intros _; eauto]. intros _. split; [exact Hopen|now exists l].
    + split; [|split].
      * intros msg. split; [discriminate|]. intros (_ & B & L).
        destruct Hopen as [C|C]; [congruence|lia].
      * intros e. split.
        -- intros H. injection H as ->. now split.
        -- intros [_ C]. now injection C as ->.
      * split; [intros (u & v & H); discriminate H|].
        intros (_ & l & C). discriminate C.
Qed.

Lemma submit2_committed : forall settings usage vehicles username f u v,
    submit2 settings usage vehicles username f = Committed u v ->
    (negative_mileage_block settings = false \/ (odo_start f <= odo_end f)%Z) /\
    exists anomaly,
      flag_daily_anomaly settings
        (Some (Fin (inject_Z (odo_end f) - inject_Z (odo_start f)))) = Ok anomaly /\
      u = (usage ++ [Usage.mk (new_LogID usage) (Some (date_ f)) (user f)
                       (company f) (vehicle_id f) (plate f)
                       (of_int (odo_start f)) (of_int (odo_end f))
                       (Fin (inject_Z (odo_end f) - inject_Z (odo_start f)))
                       (purpose f) anomaly "" username])%list /\
      v = returned_vehicles f vehicles.
Proof.
  intros settings usage vehicles username f u v H. rewrite submit2_unfold in H.
  destruct (negative_mileage_block settings) eqn:B;
    destruct (Z.ltb_spec (odo_end f) (odo_start f)) as [L|L]; cbn [andb] in H;
    try discriminate;
    (split; [auto|]);
    (destruct (flag_daily_anomaly settings _) as [anomaly|e]; [|discriminate]);
    injection H as <- <-; exists anomaly; auto.
Qed.

Lemma new_LogID_above : forall usage r,
    In r usage -> (Usage.LogID r < new_LogID usage)%Z.
Proof.
  intros [|r0 rest] r Hr; [destruct Hr|]. unfold new_LogID, max_LogID.
  destruct (max_LogID_acc rest (Usage.LogID r0)) as (_ & Hle & Hub).
  simpl in Hle, Hub. destruct Hr as [<-|Hr]; [lia|].
  assert (H := Hub (Usage.LogID r) (in_map Usage.LogID _ _ Hr)). lia.
Qed.

(** X15.  Identifiers stay unique and positive.  The identifier of a
    committed trip is greater than every identifier already in the ledger;
    so if the identifiers of the ledger were pairwise different they still
    are after the commit, and if they were all at least 1 the new one is
    too.  The rows already in the ledger are kept as they are, in their
    order, in front of the new row. *)
Theorem commit_keeps_identifiers_unique :
  forall settings usage vehicles username f u v,
    submit2 settings usage vehicles username f = Committed u v ->
    exists new_row,
      u = (usage ++ [new_row])%list /\
      (forall r, In r usage -> (Usage.LogID r < Usage.LogID new_row)%Z) /\
      (NoDup (map Usage.LogID usage) -> NoDup (map Usage.LogID u)) /\
      ((forall r, In r usage -> (1 <= Usage.LogID r)%Z) ->
       forall r, In r u -> (1 <= Usage.LogID r)%Z).
Proof.
  intros settings usage vehicles username f u v H.
  apply submit2_committed in H. destruct H as (_ & anomaly & _ & -> & _).
  eexists. split; [reflexivity|]. cbn [Usage.LogID]. split; [|split].
  - intros r Hr. now apply new_LogID_above.
  - intros Hn. rewrite map_app. cbn [map Usage.LogID].
    apply NoDup_app; [exact Hn|repeat constructor; intros []|].
    intros i Hi [<-|[]]. apply in_map_iff in Hi. destruct Hi as (r & E & Hr).
    apply new_LogID_above in Hr. lia.
  - intros Hpos r Hr. apply in_app_or in Hr. destruct Hr as [Hr|[<-|[]]].
    + now apply Hpos.
    + cbn [Usage.LogID]. destruct usage as [|r0 rest]; [simpl; lia|].
      assert (A := new_LogID_above (r0 :: rest) r0 (or_introl eq_refl)).
      assert (B := Hpos r0 (or_introl eq_refl)). lia.
Qed.

(** X16.  The row that a commit appends is the form as submitted: its date,
    user, company, vehicle, plate, readings and purpose are those of the
    form, the approver is the signed-in user and the anomaly note is
    empty.  Its derived fields agree with its readings: recomputing the
    distance from [OdoStart] and [OdoEnd] gives the stored [Distance], and
    the daily check of that distance gives the stored [AnomalyFlag]. *)
Theorem committed_row_is_consistent :
  forall settings usage vehicles username f u v,
    submit2 settings usage vehicles username f = Committed u v ->
    exists new_row,
      u = (usage ++ [new_row])%list /\
      Usage.Date new_row = Some (date_ f) /\ Usage.User new_row = user f /\
      Usage.Company new_row = company f /\
      Usage.VehicleID new_row = vehicle_id f /\
      Usage.PlateNo new_row = plate f /\ Usage.Purpose new_row = purpose f /\
      Usage.OdoStart new_row = of_int (odo_start f) /\
      Usage.OdoEnd new_row = of_int (odo_end f) /\
      Usage.ApprovedBy new_row = username /\ Usage.AnomalyNote new_row = "" /\
      compute_distance (Some (Usage.OdoStart new_row)) (Some (Usage.OdoEnd new_row))
      = Some (Usage.Distance new_row) /\
      flag_daily_anomaly settings (Some (Usage.Distance new_row))
      = Ok (Usage.AnomalyFlag new_row).
Proof.
  intros settings usage vehicles username f u v H.
  apply submit2_committed in H. destruct H as (_ & anomaly & Hflag & -> & _).
  eexists. split; [reflexivity|]. cbn. repeat split. exact Hflag.
Qed.

Lemma returned_vehicle : forall f vehicles n r,
    nth_error vehicles n = Some r ->
    nth_error (returned_vehicles f vehicles) n
    = Some (if matches (vehicle_id f) r
            then Vehicle.set_Status "Available"
                   (Vehicle.set_Odometer (of_int (odo_end f)) r)
            else r).
Proof. intros f vehicles n r H. now apply updated_vehicle. Qed.

(** X17.  With the block on, a committed trip never has a negative
    distance, but the odometer of the vehicle is protected only through
    the start reading: the new odometer is at least the submitted start
    reading, so it does not go down when the start reading is the current
    odometer of the vehicle (the value the form proposes). *)
Theorem block_keeps_odometer_from_going_down :
  forall settings usage vehicles username f u v,
    negative_mileage_block settings = true ->
    submit2 settings usage vehicles username f = Committed u v ->
    (odo_start f <= odo_end f)%Z /\
    (exists new_row q, u = (usage ++ [new_row])%list /\
                       Usage.Distance new_row = Fin q /\ 0 <= q) /\
    (forall n r, nth_error vehicles n = Some r ->
                 vehicle_id f = Some (Vehicle.VehicleID r) ->
                 Vehicle.Odometer r = of_int (odo_start f) ->
                 exists r' o o', nth_error v n = Some r' /\
                                 Vehicle.Odometer r = Fin o /\
                                 Vehicle.Odometer r' = Fin o' /\ o <= o').
Proof.
  intros settings usage vehicles username f u v Hb H.
  apply submit2_committed in H. destruct H as (Hgate & anomaly & _ & -> & ->).
  assert (Hle : (odo_start f <= odo_end f)%Z)
    by (destruct Hgate as [C|C]; [congruence|exact C]).
  split; [exact Hle|]. split.
  - eexists. eexists. split; [reflexivity|]. cbn. split; [reflexivity|].
    rewrite Zle_Qle in Hle. lra.
  - intros n r Hn Hid Ho. rewrite (returned_vehicle f vehicles n r Hn).
    rewrite Hid. simpl. rewrite String.eqb_refl.
    eexists. exists (inject_Z (odo_start f)), (inject_Z (odo_end f)).
    split; [reflexivity|]. split; [exact Ho|]. split; [reflexivity|].
    now rewrite <- Zle_Qle.
Qed.

(** X18.  Commit and service alerts together: after a committed trip the
    submitted vehicle is in the alert set computed from the new vehicles
    frame exactly when the submitted end reading is at least the interval
    above its last-service reading; the trip decides this, the odometer
    the vehicle had before does not. *)
Theorem commit_then_service_alert :
  forall settings usage vehicles username f u v n r l i,
    submit2 settings usage vehicles username f = Committed u v ->
    nth_error vehicles n = Some r ->
    vehicle_id f = Some (Vehicle.VehicleID r) ->
    Vehicle.LastServiceOdo r = Fin l ->
    service_interval settings = Ok (Fin i) ->
    exists r' rows,
      nth_error v n = Some r' /\
      service_alerts settings v = Ok rows /\
      (In r' (map fst rows) <-> i <= inject_Z (odo_end f) - l).
Proof.
  intros settings usage vehicles username f u v n r l i H Hn Hid Hl Hi.
  apply submit2_committed in H. destruct H as (_ & _ & _ & _ & ->).
  assert (Hr' := returned_vehicle f vehicles n r Hn).
  rewrite Hid in Hr'. simpl in Hr'. rewrite String.eqb_refl in Hr'.
  destruct (service_alerts_In settings (returned_vehicles f vehicles) (Fin i) Hi)
    as (rows & Hrows & _ & Hmem).
  eexists. exists rows. split; [exact Hr'|]. split; [exact Hrows|].
  rewrite Hmem. simpl. rewrite Hl. simpl. rewrite Qle_bool_iff. split.
  - intros [_ Hle]. exact Hle.
  - intros Hle. split; [|exact Hle]. now apply nth_error_In in Hr'.
Qed.

(** X19.  Two commits in a row get consecutive identifiers: when the ledger
    the second submission sees is the ledger the first one wrote, the
    second identifier is the first plus one. *)
Theorem successive_commits_have_consecutive_identifiers :
  forall settings usage vehicles username f u v settings' username' f' u' v',
    submit2 settings usage vehicles username f = Committed u v ->
    submit2 settings' u v username' f' = Committed u' v' ->
    exists row1 row2,
      u' = (usage ++ [row1; row2])%list /\
      Usage.LogID row2 = (Usage.LogID row1 + 1)%Z.
Proof.
  intros settings usage vehicles username f u v settings' username' f' u' v' H1 H2.
  apply submit2_committed in H1. destruct H1 as (_ & a1 & _ & -> & ->).
  apply submit2_committed in H2. destruct H2 as (_ & a2 & _ & -> & _).
  eexists. eexists. split; [now rewrite <- app_assoc|].
  cbn [Usage.LogID].
  set (row1 := Usage.mk (new_LogID usage) _ _ _ _ _ _ _ _ _ _ _ _).
  assert (Hin : In row1 (usage ++ [row1])%list)
    by (apply in_or_app; right; now left).
  destruct (usage ++ [row1])%list as [|r0 rest] eqn:E; [destruct Hin|].
  unfold new_LogID at 1. f_equal.
  apply max_LogID_spec.
  - change (new_LogID usage) with (Usage.LogID row1). now apply in_map.
  - intros i Hi. rewrite <- E in Hi. rewrite map_app in Hi.
    apply in_app_or in Hi. destruct Hi as [Hi|[<-|[]]]; [|cbn; lia].
    apply in_map_iff in Hi. destruct Hi as (r & <- & Hr).
    apply new_LogID_above in Hr. cbn. lia.
Qed.

(** *** Login *)

Lemma authenticate_find : forall users username password,
    authenticate users username password =
    match find (fun r => (Account.Username r =? username)
                         && (Account.Password r =? password)) users with
    | Some r => Some (Auth.mk (Account.Username r) (Account.Role r)
                              (Account.FullName r) (Account.Company r))
    | None => None
    end.
Proof.
  intros users username password. unfold authenticate.
  induction users as [|r users IH]; simpl; [reflexivity|].
  destruct ((Account.Username r =? username) && (Account.Password r =? password));
    [reflexivity|exact IH].
Qed.

(** X20.  [authenticate] refuses exactly when no row of the users sheet has
    both the given user name and the given password, the empty sheet
    included.  When it accepts, the identity it returns carries the user
    name that was typed and the role, full name and company of a row with
    that user name and that password. *)
Theorem authenticate_needs_both_fields : forall users username password,
    (authenticate users username password = None <->
     forall r, In r users ->
               ~ (Account.Username r = username /\ Account.Password r = password)) /\
    (forall a, authenticate users username password = Some a ->
               Auth.username a = username /\
               exists r, In r users /\
                         Account.Username r = username /\
                         Account.Password r = password /\
                         Auth.role a = Account.Role r /\
                         Auth.fullname a = Account.FullName r /\
                         Auth.company a = Account.Company r).
Proof.
  intros users username password. rewrite authenticate_find.
  destruct (find _ users) as [r|] eqn:F.
  - apply find_some in F. destruct F as [Hin F].
    apply andb_true_iff in F. rewrite !String.eqb_eq in F. destruct F as [Hu Hp].
    split.
    + split; [discriminate|]. intros H. elim (H r Hin). now split.
    + intros a E. injection E as <-. simpl. split; [exact Hu|].
      exists r. repeat split; trivial.
  - split.
    + split; [|reflexivity]. intros _ r Hin [Hu Hp].
      apply (find_none _ _ F) in Hin. simpl in Hin.
      rewrite Hu, Hp, !String.eqb_refl in Hin. discriminate.
    + intros a E. discriminate.
Qed.

(** X21.  When several rows of the users sheet match the credentials, the
    first one gives the role; and the navigation offers the [Admin] entry
    exactly to the role spelled [Admin], next to the four entries everyone
    gets. *)
Theorem first_account_decides_the_role :
  forall before r after username password,
    (forall x, In x before ->
               ~ (Account.Username x = username /\ Account.Password x = password)) ->
    Account.Username r = username -> Account.Password r = password ->
    (exists a, authenticate (before ++ r :: after)%list username password = Some a /\
               Auth.role a = Account.Role r /\
               (In "Admin" (sections (Auth.role a)) <-> Account.Role r = "Admin")) /\
    (forall role s, In s ["Dashboard"; "Vehicles"; "Usage"; "Reports"] ->
                    In s (sections role)).
Proof.
  intros before r after username password Hb Hu Hp. split.
  - assert (F : find (fun x => (Account.Username x =? username)
                               && (Account.Password x =? password))
                  (before ++ r :: after)%list = Some r).
    { induction before as [|b before IH]; simpl.
      - now rewrite Hu, Hp, !String.eqb_refl.
      - destruct ((Account.Username b =? username) && (Account.Password b =? password))
          eqn:E.
        + apply andb_true_iff in E. rewrite !String.eqb_eq in E.
          elim (Hb b (or_introl eq_refl) E).
        + apply IH. intros x Hx. apply Hb. now right. }
    rewrite authenticate_find, F. eexists. split; [reflexivity|].
    cbn [Auth.role]. split; [reflexivity|]. unfold sections.
    destruct (String.eqb_spec (Account.Role r) "Admin") as [E|E].
    + split; [intros _; exact E|]. intros _. apply in_or_app. right. now left.
    + split; [|intros C; contradiction].
      intros H. apply in_app_or in H. destruct H as [H|[]].
      simpl in H. repeat (destruct H as [H|H]; [discriminate H|]). destruct H.
  - intros role s Hs. unfold sections. apply in_or_app. now left.
Qed.

(** *** Dashboard *)

Lemma filter_split_length : forall (A : Type) (f : A -> bool) l,
    (List.length (filter f l) + List.length (filter (fun x => negb (f x)) l)
     = List.length l)%nat.
Proof.
  intros A f l. induction l as [|a l IH]; simpl; [reflexivity|].
  destruct (f a); simpl; lia.
Qed.

(** X22.  The dashboard counts every vehicle exactly once: "In Use" is the
    number of vehicles whose status, lower-cased, is anything but
    [available] (an empty or unknown status included), "Available Now"
    is between 0 and the total, and a vehicle a commit has just returned
    counts as available. *)
Theorem dashboard_counts_each_vehicle_once : forall vehicles,
    in_use vehicles
    = Z.of_nat (List.length (filter (fun r => negb (is_available r)) vehicles)) /\
    (0 <= available vehicles <= total_vehicles vehicles)%Z /\
    (0 <= in_use vehicles <= total_vehicles vehicles)%Z /\
    (forall r x, is_available (Vehicle.set_Status "Available"
                                 (Vehicle.set_Odometer x r)) = true).
Proof.
  intros vehicles. unfold in_use, available, total_vehicles.
  assert (H := filter_split_length _ is_available vehicles).
  repeat split; try lia.
Qed.

Lemma available_cons : forall r vehicles,
    available (r :: vehicles)
    = ((if is_available r then 1 else 0) + available vehicles)%Z.
Proof.
  intros r vehicles. unfold available. simpl.
  destruct (is_available r); simpl List.length; lia.
Qed.

(** X23.  A commit never lowers "Available Now" and never raises "In Use":
    the handler only sets statuses to [Available], which is a status the
    dashboard counts as available, and it keeps the number of vehicles. *)
Theorem commit_never_lowers_availability :
  forall settings usage vehicles username f u v,
    submit2 settings usage vehicles username f = Committed u v ->
    total_vehicles v = total_vehicles vehicles /\
    (available vehicles <= available v)%Z /\
    (in_use v <= in_use vehicles)%Z.
Proof.
  intros settings usage vehicles username f u v H.
  apply submit2_committed in H. destruct H as (_ & _ & _ & _ & ->).
  assert (T : total_vehicles (returned_vehicles f vehicles) = total_vehicles vehicles)
    by (unfold total_vehicles, returned_vehicles; now rewrite !length_map).
  assert (A : (available vehicles <= available (returned_vehicles f vehicles))%Z).
  { clear T. unfold returned_vehicles.
    induction vehicles as [|r vehicles IH]; [simpl; lia|].
    cbn [map]. rewrite !available_cons.
    destruct (matches (vehicle_id f) r) eqn:M.
    - assert (M' : matches (vehicle_id f) (Vehicle.set_Odometer (of_int (odo_end f)) r)
                   = true) by exact M.
      rewrite M'.
      assert (Av : is_available (Vehicle.set_Status "Available"
                     (Vehicle.set_Odometer (of_int (odo_end f)) r)) = true)
        by reflexivity.
      rewrite Av. destruct (is_available r); lia.
    - rewrite M. destruct (is_available r); lia. }
  split; [exact T|]. split; [exact A|]. unfold in_use. lia.
Qed.

Lemma Zsum_map_bump : forall (g : string -> Z) (c0 : string) (x : Z) ks,
    NoDup ks ->
    Zsum (map (fun c => (g c + (if (c0 =? c)%string then x else 0))%Z) ks)
    = (Zsum (map g ks) + (if in_dec string_dec c0 ks then x else 0))%Z.
Proof.
  intros g c0 x ks Hn. induction ks as [|k ks IH]; simpl; [lia|].
  inversion Hn as [|? ? Hnot Hn']; subst. rewrite (IH Hn').
  destruct (string_dec k c0) as [->|Hne].
  - rewrite String.eqb_refl. destruct (in_dec string_dec c0 ks); [contradiction|lia].
  - assert (E : (c0 =? k) = false) by (apply String.eqb_neq; congruence).
    rewrite E. destruct (in_dec string_dec c0 ks); lia.
Qed.

Lemma company_counts_total : forall (p : Vehicle.row -> bool) vehicles ks,
    NoDup ks ->
    (forall r c, In r vehicles -> Vehicle.Company r = Some c -> In c ks) ->
    Zsum (map (fun c => Z.of_nat (List.length
                          (filter p (filter (in_company c) vehicles))))
            ks)
    = Z.of_nat (List.length (filter p (filter has_company vehicles))).
Proof.
  intros p vehicles. induction vehicles as [|r vehicles IH]; intros ks Hn Hall.
  - simpl. clear. induction ks as [|k ks IH]; simpl; lia.
  - assert (Hall' : forall r0 c, In r0 vehicles -> Vehicle.Company r0 = Some c ->
                                 In c ks)
      by (intros r0 c Hr; apply Hall; now right).
    cbn [filter]. unfold in_company at 1, has_company at 1.
    destruct (Vehicle.Company r) as [c0|] eqn:Ec; [|now apply IH].
    assert (E : forall c,
        Z.of_nat (List.length
          (filter p (if (c0 =? c)%string
                     then r :: filter (in_company c) vehicles
                     else filter (in_company c) vehicles)))
        = (Z.of_nat (List.length (filter p (filter (in_company c) vehicles)))
           + (if (c0 =? c)%string then (if p r then 1 else 0) else 0))%Z).
    { intros c. destruct (c0 =? c)%string; [|lia].
      cbn [filter]. destruct (p r); simpl List.length; lia. }
    rewrite (map_ext _ _ E).
    rewrite (Zsum_map_bump _ c0 (if p r then 1 else 0) ks Hn).
    destruct (in_dec string_dec c0 ks) as [_|C];
      [|elim C; apply (Hall r); [now left|exact Ec]].
    rewrite (IH ks Hn Hall').
    cbn [filter]. destruct (p r); simpl List.length; lia.
Qed.

Lemma filter_all : forall (A : Type) (l : list A), filter (fun _ => true) l = l.
Proof. intros A l. induction l as [|a l IH]; simpl; [reflexivity|now rewrite IH]. Qed.

Lemma company_labels : forall vehicles,
    map Company (availability_by_company vehicles)
    = TextSort.sort (nodup string_dec (dropna (map Vehicle.Company vehicles))).
Proof.
  intros vehicles. unfold availability_by_company. rewrite map_map. simpl.
  apply map_id.
Qed.

Lemma dropna_Some : forall (values : list (option string)) c,
    In c (dropna values) <-> In (Some c) values.
Proof.
  induction values as [|[v|] values IH]; intros c; simpl.
  - reflexivity.
  - rewrite IH. split; (intros [H|H]; [left; congruence|now right]).
  - rewrite IH. split; [now right|]. intros [H|H]; [discriminate|exact H].
Qed.

(** The vehicles without a company are in no group. *)
Lemma availability_of_owned : forall vehicles,
    availability_by_company (filter has_company vehicles)
    = availability_by_company vehicles.
Proof.
  intros vehicles. unfold availability_by_company.
  assert (K : dropna (map Vehicle.Company (filter has_company vehicles))
              = dropna (map Vehicle.Company vehicles)).
  { induction vehicles as [|r vehicles IH]; [reflexivity|].
    cbn [filter map]. unfold has_company at 1.
    destruct (Vehicle.Company r) as [c|] eqn:E; cbn [map dropna].
    - rewrite E. cbn [dropna]. now rewrite IH.
    - exact IH. }
  rewrite K. apply map_ext. intros c.
  assert (G : filter (in_company c) (filter has_company vehicles)
              = filter (in_company c) vehicles).
  { clear K. induction vehicles as [|r vehicles IH]; [reflexivity|].
    cbn [filter]. unfold has_company at 1, in_company at 2.
    destruct (Vehicle.Company r) as [c'|] eqn:E.
    - cbn [filter]. unfold in_company at 1. rewrite E.
      destruct (c' =? c)%string; now rewrite IH.
    - exact IH. }
  now rewrite G.
Qed.

Lemma owned_metrics : forall vehicles,
    (total_vehicles (filter has_company vehicles) <= total_vehicles vehicles)%Z /\
    (available (filter has_company vehicles) <= available vehicles)%Z /\
    (in_use (filter has_company vehicles) <= in_use vehicles)%Z.
Proof.
  intros vehicles. unfold in_use, available, total_vehicles.
  induction vehicles as [|r vehicles IH]; [simpl; lia|].
  cbn [filter]. destruct (has_company r); cbn [filter];
    destruct (is_available r); cbn [List.length];
    rewrite ?Nat2Z.inj_succ; lia.
Qed.

Lemma filter_has_company : forall vehicles,
    (forall r, In r vehicles -> Vehicle.Company r <> None) ->
    filter has_company vehicles = vehicles.
Proof.
  induction vehicles as [|r vehicles IH]; intros H; [reflexivity|].
  cbn [filter]. unfold has_company at 1.
  destruct (Vehicle.Company r) eqn:E.
  - f_equal. apply IH. intros r0 Hr0. apply H. now right.
  - elim (H r (or_introl eq_refl) E).
Qed.

(** X24.  "Availability by Company" splits the vehicles that have a
    company: it has one row per company that owns a vehicle and no other
    row; in each row the available and in-use counts add up to the total,
    which is at least 1; over all rows the totals, the available counts
    and the in-use counts add up to the three dashboard metrics of the
    vehicles that have a company.  A vehicle whose [Company] cell is
    missing is in no row, so the sums can stay below the metrics at the
    top of the dashboard; they reach them when every vehicle has a
    company. *)
Theorem availability_by_company_splits_the_fleet : forall vehicles,
    NoDup (map Company (availability_by_company vehicles)) /\
    (forall c, In c (map Company (availability_by_company vehicles)) <->
               exists r, In r vehicles /\ Vehicle.Company r = Some c) /\
    (forall row, In row (availability_by_company vehicles) ->
                 (Available row + InUse row = Total row)%Z /\
                 (0 <= Available row)%Z /\ (0 <= InUse row)%Z /\
                 (1 <= Total row)%Z) /\
    availability_by_company vehicles
    = availability_by_company (filter has_company vehicles) /\
    (Zsum (map Total (availability_by_company vehicles))
     = total_vehicles (filter has_company vehicles) /\
     Zsum (map Available (availability_by_company vehicles))
     = available (filter has_company vehicles) /\
     Zsum (map InUse (availability_by_company vehicles))
     = in_use (filter has_company vehicles)) /\
    ((Zsum (map Total (availability_by_company vehicles))
      <= total_vehicles vehicles)%Z /\
     (Zsum (map Available (availability_by_company vehicles))
      <= available vehicles)%Z /\
     (Zsum (map InUse (availability_by_company vehicles))
      <= in_use vehicles)%Z) /\
    ((forall r, In r vehicles -> Vehicle.Company r <> None) ->
     Zsum (map Total (availability_by_company vehicles)) = total_vehicles vehicles /\
     Zsum (map Available (availability_by_company vehicles)) = available vehicles /\
     Zsum (map InUse (availability_by_company vehicles)) = in_use vehicles).
Proof.
  intros vehicles.
  set (ks := TextSort.sort (nodup string_dec (dropna (map Vehicle.Company vehicles)))).
  assert (P := TextSort.Permuted_sort
                 (nodup string_dec (dropna (map Vehicle.Company vehicles)))).
  fold ks in P.
  assert (Hn : NoDup ks) by (apply (Permutation_NoDup P), NoDup_nodup).
  assert (Hin : forall c, In c ks <->
                          exists r, In r vehicles /\ Vehicle.Company r = Some c).
  { intros c. split.
    - intros H. apply (Permutation_in _ (Permutation_sym P)) in H.
      apply nodup_In, dropna_Some, in_map_iff in H.
      destruct H as (r & E & Hr). now exists r.
    - intros (r & Hr & E). apply (Permutation_in _ P), nodup_In, dropna_Some.
      apply in_map_iff. now exists r. }
  assert (Hall : forall r c, In r vehicles -> Vehicle.Company r = Some c -> In c ks)
    by (intros r c Hr E; apply Hin; now exists r).
  assert (HT : Zsum (map Total (availability_by_company vehicles))
               = total_vehicles (filter has_company vehicles)).
  { unfold availability_by_company. rewrite map_map. simpl. fold ks.
    unfold total_vehicles.
    assert (C := company_counts_total (fun _ => true) vehicles ks Hn Hall).
    rewrite filter_all in C. rewrite <- C.
    f_equal. apply map_ext. intros c. now rewrite filter_all. }
  assert (HA : Zsum (map Available (availability_by_company vehicles))
               = available (filter has_company vehicles)).
  { unfold availability_by_company. rewrite map_map. simpl. fold ks.
    unfold available.
    now rewrite <- (company_counts_total is_available vehicles ks Hn Hall). }
  assert (HI : Zsum (map InUse (availability_by_company vehicles))
               = in_use (filter has_company vehicles)).
  { unfold in_use. rewrite <- HT, <- HA.
    unfold availability_by_company. rewrite !map_map. simpl. fold ks.
    clear. induction ks as [|k ks IH]; simpl; lia. }
  assert (M := owned_metrics vehicles).
  rewrite company_labels. fold ks.
  split; [exact Hn|]. split; [exact Hin|].
  split; [|split; [now rewrite availability_of_owned|]].
  - intros row Hrow. unfold availability_by_company in Hrow. fold ks in Hrow.
    apply in_map_iff in Hrow. destruct Hrow as (c & <- & Hc). simpl.
    set (grp := filter (in_company c) vehicles).
    assert (S := filter_split_length _ is_available grp).
    unfold available, total_vehicles.
    assert (L : (1 <= List.length grp)%nat).
    { apply Hin in Hc. destruct Hc as (r & Hr & E).
      assert (Hg : In r grp).
      { apply filter_In. split; [exact Hr|]. unfold in_company. rewrite E.
        apply String.eqb_refl. }
      destruct grp; [destruct Hg|simpl; lia]. }
    lia.
  - split; [now repeat split|]. split.
    + rewrite HT, HA, HI. exact M.
    + intros Hc. rewrite HT, HA, HI. rewrite (filter_has_company _ Hc).
      now repeat split.
Qed.

(** *** Reports *)

Lemma filter_In_iff : forall (A : Type) (f : A -> bool) (b : bool) l x,
    In x (if b then filter f l else l) <-> In x l /\ (b = false \/ f x = true).
Proof.
  intros A f b l x. destruct b.
  - rewrite filter_In. intuition discriminate.
  - intuition.
Qed.

Lemma filter_twice : forall (A : Type) (f g : A -> bool) l,
    filter f (filter g l) = filter (fun x => g x && f x) l.
Proof.
  intros A f g l. induction l as [|a l IH]; simpl; [reflexivity|].
  destruct (g a); simpl; [|exact IH]. destruct (f a); now rewrite IH.
Qed.

Lemma filter_if : forall (A : Type) (b : bool) (f : A -> bool) l,
    (if b then filter f l else l) = filter (fun x => negb b || f x) l.
Proof.
  intros A b f l. destruct b; simpl; [reflexivity|].
  symmetry. apply filter_all.
Qed.

Lemma report_as_filter : forall company_f vehicle_f user_f usage,
    report company_f vehicle_f user_f usage
    = filter (passes company_f vehicle_f user_f) usage.
Proof.
  intros company_f vehicle_f user_f usage. unfold report.
  rewrite (filter_if _ (negb (user_f =? "All")) (fun r => Usage.User r =? user_f)).
  rewrite (filter_if _ (negb (vehicle_f =? "All"))
             (fun r => match Usage.VehicleID r with
                       | Some v => v =? vehicle_f
                       | None => false
                       end)).
  rewrite (filter_if _ (negb (company_f =? "All"))
             (fun r => Usage.Company r =? company_f)).
  rewrite !filter_twice. apply filter_ext. intros r. unfold passes.
  now rewrite !negb_involutive, ?andb_assoc.
Qed.

Lemma passes_iff : forall company_f vehicle_f user_f r,
    passes company_f vehicle_f user_f r = true <->
    (company_f = "All" \/ Usage.Company r = company_f) /\
    (vehicle_f = "All" \/ Usage.VehicleID r = Some vehicle_f) /\
    (user_f = "All" \/ Usage.User r = user_f).
Proof.
  intros company_f vehicle_f user_f r. unfold passes.
  rewrite !andb_true_iff, !orb_true_iff, !String.eqb_eq.
  assert (V : (match Usage.VehicleID r with
               | Some v => v =? vehicle_f
               | None => false
               end = true) <-> Usage.VehicleID r = Some vehicle_f).
  { destruct (Usage.VehicleID r) as [v|].
    - rewrite String.eqb_eq. split; [now intros ->|now intros [= ->]].
    - split; discriminate. }
  rewrite V. split; [intros [[H1 H2] H3]|intros (H1 & H2 & H3)]; auto.
Qed.

(** X25.  The report shows exactly the trips that pass the three choices,
    in the order of the usage frame: a choice of [All] lets every trip
    pass, any other choice lets pass the trips whose company, vehicle or
    user is that very text (a trip without a vehicle passes no vehicle
    choice but [All]).  With [All] three times the report is the whole
    frame, and filtering a report again with the same choices changes
    nothing. *)
Theorem report_shows_matching_trips : forall company_f vehicle_f user_f usage,
    (forall r, In r (report company_f vehicle_f user_f usage) <->
               In r usage /\
               (company_f = "All" \/ Usage.Company r = company_f) /\
               (vehicle_f = "All" \/ Usage.VehicleID r = Some vehicle_f) /\
               (user_f = "All" \/ Usage.User r = user_f)) /\
    report "All" "All" "All" usage = usage /\
    report company_f vehicle_f user_f (report company_f vehicle_f user_f usage)
    = report company_f vehicle_f user_f usage /\
    (exists keep, report company_f vehicle_f user_f usage = filter keep usage).
Proof.
  intros company_f vehicle_f user_f usage. split; [|split; [|split]].
  - intros r. now rewrite report_as_filter, filter_In, passes_iff.
  - reflexivity.
  - rewrite !report_as_filter, filter_twice. apply filter_ext. intros r.
    apply andb_diag.
  - eexists. apply report_as_filter.
Qed.

Lemma dropna_In : forall values c, In c (dropna values) <-> In (Some c) values.
Proof.
  induction values as [|[v|] values IH]; intros c; simpl.
  - split; intros [].
  - split.
    + intros [->|H]; [now left|right; now apply IH].
    + intros [H|H]; [left; now injection H|right; now apply IH].
  - split.
    + intros H. right. now apply IH.
    + intros [H|H]; [discriminate|now apply IH].
Qed.

Lemma filter_options_spec : forall values,
    exists rest,
      filter_options values = "All" :: rest /\
      NoDup rest /\
      StronglySorted (fun a b => String.leb a b = true) rest /\
      (forall c, In c rest <-> In (Some c) values).
Proof.
  intros values. unfold filter_options. eexists. split; [reflexivity|].
  assert (P := TextSort.Permuted_sort (nodup string_dec (dropna values))).
  split; [|split].
  - apply (Permutation_NoDup P), NoDup_nodup.
  - assert (S := TextSort.StronglySorted_sort (nodup string_dec (dropna values))).
    apply S. intros a b c. apply string_leb_trans.
  - intros c. rewrite <- dropna_In, <- (nodup_In string_dec (dropna values) c).
    split.
    + apply Permutation_in. now apply Permutation_sym.
    + now apply Permutation_in.
Qed.

(** X26.  The three filters of the report offer [All] first and then, in
    ascending order and each once, exactly the companies, vehicles and
    users that occur in the usage frame (missing vehicles are left out).
    So every entry other than [All] selects at least one trip. *)
Theorem filters_offer_what_the_frame_holds : forall usage,
    (exists rest, company_options usage = "All" :: rest /\ NoDup rest /\
                  StronglySorted (fun a b => String.leb a b = true) rest /\
                  forall c, In c rest <-> exists r, In r usage /\ Usage.Company r = c) /\
    (exists rest, vehicle_options usage = "All" :: rest /\ NoDup rest /\
                  StronglySorted (fun a b => String.leb a b = true) rest /\
                  forall c, In c rest <->
                            exists r, In r usage /\ Usage.VehicleID r = Some c) /\
    (exists rest, user_options usage = "All" :: rest /\ NoDup rest /\
                  StronglySorted (fun a b => String.leb a b = true) rest /\
                  forall c, In c rest <-> exists r, In r usage /\ Usage.User r = c) /\
    (forall c, In c (company_options usage) -> c <> "All" ->
               report c "All" "All" usage <> []) /\
    (forall c, In c (vehicle_options usage) -> c <> "All" ->
               report "All" c "All" usage <> []) /\
    (forall c, In c (user_options usage) -> c <> "All" ->
               report "All" "All" c usage <> []).
Proof.
  intros usage.
  destruct (filter_options_spec (map (fun r => Some (Usage.Company r)) usage))
    as (rc & Ec & Nc & Sc & Mc).
  destruct (filter_options_spec (map Usage.VehicleID usage))
    as (rv & Ev & Nv & Sv & Mv).
  destruct (filter_options_spec (map (fun r => Some (Usage.User r)) usage))
    as (ru & Eu & Nu & Su & Mu).
  assert (Mc' : forall c, In c rc <-> exists r, In r usage /\ Usage.Company r = c).
  { intros c. rewrite Mc, in_map_iff. split; intros (r & H1 & H2).
    - exists r. split; [exact H2|congruence].
    - exists r. split; [congruence|exact H1]. }
  assert (Mv' : forall c, In c rv <-> exists r, In r usage /\ Usage.VehicleID r = Some c).
  { intros c. rewrite Mv, in_map_iff. split; intros (r & H1 & H2); exists r; auto. }
  assert (Mu' : forall c, In c ru <-> exists r, In r usage /\ Usage.User r = c).
  { intros c. rewrite Mu, in_map_iff. split; intros (r & H1 & H2).
    - exists r. split; [exact H2|congruence].
    - exists r. split; [congruence|exact H1]. }
  assert (Nonempty : forall cf vf uf r,
             In r usage -> passes cf vf uf r = true -> report cf vf uf usage <> []).
  { intros cf vf uf r Hr Hp E.
    assert (H : In r (report cf vf uf usage))
      by (rewrite report_as_filter; apply filter_In; now split).
    rewrite E in H. destruct H. }
  split; [exists rc; auto|]. split; [exists rv; auto|]. split; [exists ru; auto|].
  split; [|split].
  - intros c Hc Hne. unfold company_options in Hc. rewrite Ec in Hc.
    destruct Hc as [E|Hc]; [now elim Hne|].
    apply Mc' in Hc. destruct Hc as (r & Hr & E).
    apply (Nonempty c "All" "All" r Hr). apply passes_iff. auto.
  - intros c Hc Hne. unfold vehicle_options in Hc. rewrite Ev in Hc.
    destruct Hc as [E|Hc]; [now elim Hne|].
    apply Mv' in Hc. destruct Hc as (r & Hr & E).
    apply (Nonempty "All" c "All" r Hr). apply passes_iff. auto.
  - intros c Hc Hne. unfold user_options in Hc. rewrite Eu in Hc.
    destruct Hc as [E|Hc]; [now elim Hne|].
    apply Mu' in Hc. destruct Hc as (r & Hr & E).
    apply (Nonempty "All" "All" c r Hr). apply passes_iff. auto.
Qed.

End App.

(** ** The statements on concrete data

    [float_of_decimal] stands for [float]: on the texts used below the two
    agree ([float("abc")] and [float(" false ")] raise [ValueError]). *)

(** C9, the claim as worded fails: the value [" false "] is not the text
    [FALSE] in any case and is no number, so the claim returns it as text,
    while [get_setting] trims it and returns the boolean [False]. *)
Lemma get_setting_trims_before_matching :
  coerce_as_stated float_of_decimal " false " = VStr " false " /\
  get_setting float_of_decimal padded_settings "NEGATIVE_MILEAGE_BLOCK" (VBool true)
  = VBool false /\
  get_setting float_of_decimal padded_settings "NEGATIVE_MILEAGE_BLOCK" (VBool true)
  <> coerce_as_stated float_of_decimal " false ".
Proof.
  split; [reflexivity|]. split; [reflexivity|].
  vm_compute. discriminate.
Qed.

Lemma get_setting_coerces_trimmed_value_witness :
  get_setting float_of_decimal padded_settings "MONTHLY_HIGH_JUMP" (VInt 4000)
  = VInt 4000 /\
  get_setting float_of_decimal padded_settings "NEGATIVE_MILEAGE_BLOCK" (VBool true)
  = VBool false /\
  get_setting float_of_decimal padded_settings "DAILY_TRIP_LIMIT" (VInt 1000)
  = VFloat (Fin 1500) /\
  get_setting float_of_decimal padded_settings "SITE" VNone = VStr "Kerteh".
Proof.
  split; [|split; [|split]].
  - apply (proj1 (get_setting_coerces_trimmed_value float_of_decimal padded_settings
                    "MONTHLY_HIGH_JUMP" (VInt 4000))).
    intros r [<-|[<-|[<-|[]]]]; discriminate.
  - apply (proj2 (get_setting_coerces_trimmed_value float_of_decimal padded_settings
                    "NEGATIVE_MILEAGE_BLOCK" (VBool true))
             (mkSetting "NEGATIVE_MILEAGE_BLOCK" " false ") eq_refl).
    reflexivity.
  - apply (proj2 (get_setting_coerces_trimmed_value float_of_decimal padded_settings
                    "DAILY_TRIP_LIMIT" (VInt 1000))
             (mkSetting "DAILY_TRIP_LIMIT" "1500") eq_refl);
      [discriminate|discriminate|reflexivity].
  - apply (proj2 (get_setting_coerces_trimmed_value float_of_decimal padded_settings
                    "SITE" VNone)
             (mkSetting "SITE" " Kerteh ") eq_refl);
      [discriminate|discriminate|reflexivity].
Defined.

Lemma compute_distance_absent_iff_missing_witness :
  compute_distance None (Some (of_int 90)) = None /\
  compute_distance (Some (of_int 100)) (Some NaN) = None /\
  compute_distance (Some (Fin 100)) (Some (Fin 90)) = Some (Fin (90 - 100)).
Proof.
  destruct compute_distance_absent_iff_missing as (Habs & Hsub & _).
  split; [|split].
  - apply Habs. left. reflexivity.
  - apply Habs. right. reflexivity.
  - apply Hsub.
Defined.

Lemma flag_daily_anomaly_strict_witness :
  flag_daily_anomaly float_of_decimal [] (Some (Fin 1001)) = Ok "DAILY_HIGH" /\
  flag_daily_anomaly float_of_decimal [] (Some (Fin 1000)) = Ok "" /\
  flag_daily_anomaly float_of_decimal [] None = Ok "" /\
  flag_daily_anomaly float_of_decimal [mkSetting "DAILY_TRIP_LIMIT" "250"]
    (Some (Fin 251)) = Ok "DAILY_HIGH".
Proof.
  split; [|split; [|split]].
  - apply (proj1 (flag_daily_anomaly_strict float_of_decimal [] (Some (Fin 1001)))).
    exists 1001, 1000. repeat split.
  - apply (proj1 (proj2 (proj2 (proj2
             (flag_daily_anomaly_strict float_of_decimal [] (Some (Fin 1000))))))
             1000 1000); reflexivity.
  - apply (proj1 (proj2 (flag_daily_anomaly_strict float_of_decimal [] None))).
    reflexivity.
  - apply (proj1 (flag_daily_anomaly_strict float_of_decimal
                    [mkSetting "DAILY_TRIP_LIMIT" "250"] (Some (Fin 251)))).
    exists 251, 250. repeat split.
Defined.

Lemma service_alerts_inclusive_witness :
  (exists rows,
      service_alerts float_of_decimal short_interval
        [sample_vehicle 7499; sample_vehicle 7500; sample_vehicle 10000] = Ok rows /\
      In (sample_vehicle 7500) (map fst rows) /\
      In (sample_vehicle 10000) (map fst rows) /\
      ~ In (sample_vehicle 7499) (map fst rows)) /\
  (exists rows,
      service_alerts float_of_decimal []
        [sample_vehicle 7500; sample_vehicle 10000] = Ok rows /\
      In (sample_vehicle 10000) (map fst rows) /\
      ~ In (sample_vehicle 7500) (map fst rows)).
Proof.
  split.
  - destruct (service_alerts_inclusive float_of_decimal short_interval
                [sample_vehicle 7499; sample_vehicle 7500; sample_vehicle 10000])
      as (Hcfg & _ & Hsel).
    assert (Hi : service_interval float_of_decimal short_interval = Ok (Fin 7500)).
    { apply (Hcfg (mkSetting "SERVICE_INTERVAL_KM" "7500") (Fin 7500));
        [reflexivity|discriminate|discriminate|reflexivity]. }
    destruct (Hsel (Fin 7500) Hi) as (rows & Hrows & Hmem & Heq).
    exists rows. split; [exact Hrows|]. split; [|split].
    + apply (Heq (sample_vehicle 7500) 7500 0 7500);
        [right; left; reflexivity|reflexivity|reflexivity|reflexivity|reflexivity].
    + apply Hmem. split; [right; right; left; reflexivity|].
      exists 10000, 0, 7500. repeat split; discriminate.
    + intros H. apply Hmem in H.
      destruct H as (_ & o & l & i & Ho & Hl & Hi' & Hle).
      injection Ho as <-. injection Hl as <-. injection Hi' as <-.
      vm_compute in Hle. apply Hle. reflexivity.
  - destruct (service_alerts_inclusive float_of_decimal []
                [sample_vehicle 7500; sample_vehicle 10000])
      as (_ & Hdef & Hsel).
    assert (Hi : service_interval float_of_decimal [] = Ok (Fin 10000))
      by (apply Hdef; intros r []).
    destruct (Hsel (Fin 10000) Hi) as (rows & Hrows & Hmem & Heq).
    exists rows. split; [exact Hrows|]. split.
    + apply (Heq (sample_vehicle 10000) 10000 0 10000);
        [right; left; reflexivity|reflexivity|reflexivity|reflexivity|reflexivity].
    + intros H. apply Hmem in H.
      destruct H as (_ & o & l & i & Ho & Hl & Hi' & Hle).
      injection Ho as <-. injection Hl as <-. injection Hi' as <-.
      vm_compute in Hle. apply Hle. reflexivity.
Defined.

Lemma new_identifier_is_max_plus_one_witness :
  (exists new_row v,
      submit2 float_of_decimal [] [] [sample_vehicle 5000] "admin"
        (sample_form 5000 5100) = Committed [new_row] v /\
      Usage.LogID new_row = 1%Z) /\
  (exists new_row v,
      submit2 float_of_decimal [] gapped_ledger [sample_vehicle 5000] "admin"
        (sample_form 5000 5100) = Committed (gapped_ledger ++ [new_row])%list v /\
      Usage.LogID new_row = 8%Z).
Proof.
  split.
  - destruct (new_identifier_is_max_plus_one float_of_decimal [] []
                [sample_vehicle 5000] "admin" (sample_form 5000 5100) _ _ eq_refl)
      as (new_row & Hu & Hempty & _).
    exists new_row. eexists. split.
    + injection Hu as <-. reflexivity.
    + apply Hempty. reflexivity.
  - destruct (new_identifier_is_max_plus_one float_of_decimal [] gapped_ledger
                [sample_vehicle 5000] "admin" (sample_form 5000 5100) _ _ eq_refl)
      as (new_row & Hu & _ & Hmax).
    exists new_row. eexists. split.
    + apply app_inv_head in Hu. injection Hu as <-. reflexivity.
    + apply (Hmax 7%Z).
      * right. left. reflexivity.
      * intros i [<-|[<-|[<-|[]]]]; discriminate.
Defined.

Lemma commit_updates_only_the_vehicle_witness :
  exists u v,
    submit2 float_of_decimal [] [] [other_vehicle; sample_vehicle 5000] "admin"
      (sample_form 5000 5100) = Committed u v /\
    nth_error v 0 = Some other_vehicle /\
    exists r', nth_error v 1 = Some r' /\
               Vehicle.Odometer r' = of_int 5100 /\
               Vehicle.Status r' = "Available" /\
               Vehicle.PlateNo r' = "WXY 1234".
Proof.
  destruct (commit_updates_only_the_vehicle float_of_decimal [] []
              [other_vehicle; sample_vehicle 5000] "admin" (sample_form 5000 5100)
              _ _ eq_refl) as (_ & Hsame & Hother).
  eexists. eexists. split; [reflexivity|]. split.
  - apply (Hother 0%nat other_vehicle eq_refl). discriminate.
  - destruct (Hsame 1%nat (sample_vehicle 5000) eq_refl eq_refl)
      as (r' & Hn & Ho & Hs & _ & Hp & _).
    exists r'. repeat split; assumption.
Defined.

(** C1, the claim as worded fails: with the block disabled and a
    [DAILY_TRIP_LIMIT] that is no number, the submission (100, 90) is not
    committed; [float(limit)] raises at line 61, before anything is saved. *)
Lemma disabled_block_does_not_always_commit :
  negative_mileage_block float_of_decimal block_off_bad_limit = false /\
  submit2 float_of_decimal block_off_bad_limit [] [sample_vehicle 100] "admin"
    (sample_form 100 90) = Failed ValueError /\
  sheets_after [] [sample_vehicle 100]
    (submit2 float_of_decimal block_off_bad_limit [] [sample_vehicle 100] "admin"
       (sample_form 100 90)) = ([], [sample_vehicle 100]).
Proof. repeat split. Qed.

Lemma negative_mileage_gate_witness :
  (submit2 float_of_decimal [] [] [sample_vehicle 100] "admin" (sample_form 100 90)
   = Rejected rejection /\
   sheets_after [] [sample_vehicle 100]
     (submit2 float_of_decimal [] [] [sample_vehicle 100] "admin" (sample_form 100 90))
   = ([], [sample_vehicle 100])) /\
  (exists new_row v,
      submit2 float_of_decimal block_off [] [sample_vehicle 100] "admin"
        (sample_form 100 90) = Committed [new_row] v /\
      Usage.Distance new_row = Fin (-10) /\
      exists r', nth_error v 0 = Some r' /\ Vehicle.Odometer r' = of_int 90).
Proof.
  split.
  - apply (proj1 (negative_mileage_gate float_of_decimal [] [] [sample_vehicle 100]
                    "admin" (sample_form 100 90))).
    + reflexivity.
    + right. exists (-10). split; reflexivity.
  - destruct (proj2 (negative_mileage_gate float_of_decimal block_off []
                       [sample_vehicle 100] "admin" (sample_form 100 90))
                (Fin 1000) eq_refl eq_refl)
      as (new_row & v & Hc & _ & Hd & Hv).
    exists new_row, v. split; [exact Hc|]. split.
    + injection Hd as ->. reflexivity.
    + apply (Hv 0%nat (sample_vehicle 100)); reflexivity.
Defined.

(** C10, the claim as worded fails: with the block enabled and a
    [DAILY_TRIP_LIMIT] that is no number, the submission (100, 100) passes
    the negative-mileage test but is not committed. *)
Lemma zero_distance_does_not_always_commit :
  odo_start (sample_form 100 100) = odo_end (sample_form 100 100) /\
  negative_mileage_block float_of_decimal bad_limit = true /\
  submit2 float_of_decimal bad_limit [] [sample_vehicle 100] "admin"
    (sample_form 100 100) = Failed ValueError /\
  sheets_after [] [sample_vehicle 100]
    (submit2 float_of_decimal bad_limit [] [sample_vehicle 100] "admin"
       (sample_form 100 100)) = ([], [sample_vehicle 100]).
Proof. repeat split. Qed.

Lemma zero_distance_is_committed_witness :
  (submit2 float_of_decimal [] gapped_ledger [sample_vehicle 100] "admin"
     (sample_form 100 100) <> Rejected rejection /\
   exists new_row v,
     submit2 float_of_decimal [] gapped_ledger [sample_vehicle 100] "admin"
       (sample_form 100 100) = Committed (gapped_ledger ++ [new_row])%list v /\
     (exists q, Usage.Distance new_row = Fin q /\ q == 0) /\
     exists r', nth_error v 0 = Some r' /\ Vehicle.Odometer r' = of_int 100) /\
  (submit2 float_of_decimal bad_limit [] [sample_vehicle 100] "admin"
     (sample_form 100 100) <> Rejected rejection /\
   submit2 float_of_decimal bad_limit [] [sample_vehicle 100] "admin"
     (sample_form 100 100) = Failed ValueError).
Proof.
  split.
  - destruct (zero_distance_is_committed float_of_decimal [] gapped_ledger
                [sample_vehicle 100] "admin" (sample_form 100 100)
                eq_refl eq_refl) as (Hrej & Hcommit & _).
    split; [apply Hrej|].
    destruct (Hcommit (Fin 1000) eq_refl) as (new_row & v & Hc & Hq & Hv).
    exists new_row, v. split; [exact Hc|]. split; [exact Hq|].
    apply (Hv 0%nat (sample_vehicle 100)); reflexivity.
  - destruct (zero_distance_is_committed float_of_decimal bad_limit []
                [sample_vehicle 100] "admin" (sample_form 100 100)
                eq_refl eq_refl) as (Hrej & _ & Hfail).
    split; [apply Hrej|]. apply Hfail. reflexivity.
Defined.


Lemma monthly_sum_ignores_absent_witness :
  (exists s,
      monthly_vehicle_distance
        [sample_trip 1 (Some (mkDate 2025 1 10)) (Some "V1") (Fin 40);
         sample_trip 2 (Some (mkDate 2025 1 22)) (Some "V1") (Fin 25)]
      = [mkMonthly "V1" "2025-01" (Fin s)] /\ s == 40 + 25) /\
  (exists s,
      (monthly_vehicle_distance
         [sample_trip 1 (Some (mkDate 2025 1 10)) (Some "V1") (Fin 40);
          sample_trip 7 (Some (mkDate 2025 1 22)) (Some "V1") NaN]
       = [mkMonthly "V1" "2025-01" (Fin s)] /\
       monthly_vehicle_distance
         [sample_trip 7 (Some (mkDate 2025 1 22)) (Some "V1") NaN;
          sample_trip 1 (Some (mkDate 2025 1 10)) (Some "V1") (Fin 40)]
       = [mkMonthly "V1" "2025-01" (Fin s)]) /\ s == 40) /\
  (forall g, In g (monthly_vehicle_distance gapped_ledger) ->
             exists s, MonthlyDistance g = Fin s).
Proof.
  destruct monthly_sum_ignores_absent as (Hgroup & _ & Hpair & Habsent).
  split; [|split].
  - apply (Hpair (sample_trip 1 (Some (mkDate 2025 1 10)) (Some "V1") (Fin 40))
                 (sample_trip 2 (Some (mkDate 2025 1 22)) (Some "V1") (Fin 25))
                 "V1" 40 25); reflexivity.
  - apply (Habsent (sample_trip 1 (Some (mkDate 2025 1 10)) (Some "V1") (Fin 40))
                   (sample_trip 7 (Some (mkDate 2025 1 22)) (Some "V1") NaN)
                   "V1" 40); reflexivity.
  - intros g Hg. destruct (Hgroup gapped_ledger g Hg) as (_ & _ & Hsum).
    destruct Hg as [<-|[<-|[]]].
    + destruct Hsum as (s & Hs & _); [exists 40; left; reflexivity|].
      exists s. exact Hs.
    + destruct Hsum as (s & Hs & _); [exists 25; left; reflexivity|].
      exists s. exact Hs.
Defined.

(** ** The further properties on concrete data *)

Lemma get_setting_first_row_wins_witness :
  get_setting float_of_decimal repeated_key "DAILY_TRIP_LIMIT" (VInt 1000)
  = VFloat (Fin 1500).
Proof.
  assert (Hb : forall x, In x [mkSetting "SITE" "Kerteh"] ->
                         Key x <> "DAILY_TRIP_LIMIT")
    by (intros x [<-|[]]; discriminate).
  exact (proj1 (get_setting_first_row_wins float_of_decimal
                  [mkSetting "SITE" "Kerteh"]
                  (mkSetting "DAILY_TRIP_LIMIT" "1500")
                  [mkSetting "DAILY_TRIP_LIMIT" "abc"]
                  "DAILY_TRIP_LIMIT" (VInt 1000) Hb eq_refl)).
Defined.

Lemma get_setting_returns_clean_values_witness :
  get_setting float_of_decimal padded_settings "SITE" VNone = VStr "Kerteh" /\
  to_float float_of_decimal (get_setting float_of_decimal padded_settings "SITE" VNone)
  = Raise ValueError.
Proof.
  split; [reflexivity|].
  destruct (get_setting_returns_clean_values float_of_decimal padded_settings
              "SITE" VNone (mkSetting "SITE" " Kerteh ") eq_refl)
    as [(b & E)|[(x & E & _)|(s & _ & _ & _ & _ & _ & _ & E)]].
  - discriminate E.
  - discriminate E.
  - exact E.
Defined.

Lemma numeric_setting_fails_on_malformed_text_only_witness :
  to_float float_of_decimal
    (get_setting float_of_decimal bad_limit "DAILY_TRIP_LIMIT" (VInt 1000))
  = Raise ValueError /\
  to_float float_of_decimal
    (get_setting float_of_decimal bad_limit "SERVICE_INTERVAL_KM" (VInt 10000))
  = Ok (of_int 10000).
Proof.
  destruct (numeric_setting_fails_on_malformed_text_only float_of_decimal bad_limit
              "DAILY_TRIP_LIMIT" 1000) as (_ & Hraise & _).
  destruct (numeric_setting_fails_on_malformed_text_only float_of_decimal bad_limit
              "SERVICE_INTERVAL_KM" 10000) as (_ & _ & Habsent & _).
  split.
  - apply Hraise. exists (mkSetting "DAILY_TRIP_LIMIT" "abc").
    split; [reflexivity|]. split; [discriminate|]. split; [discriminate|reflexivity].
  - apply Habsent. intros x [<-|[]]. discriminate.
Defined.

Lemma negative_mileage_block_off_iff_witness :
  negative_mileage_block float_of_decimal block_off = false /\
  negative_mileage_block float_of_decimal zero_block = false.
Proof.
  split.
  - apply (proj2 (negative_mileage_block_off_iff float_of_decimal block_off)).
    exists (mkSetting "NEGATIVE_MILEAGE_BLOCK" "FALSE").
    split; [reflexivity|]. left. reflexivity.
  - apply (proj2 (negative_mileage_block_off_iff float_of_decimal zero_block)).
    exists (mkSetting "NEGATIVE_MILEAGE_BLOCK" " 0 ").
    split; [reflexivity|]. right. split; [discriminate|]. split; [discriminate|].
    left. exists 0. split; reflexivity.
Defined.

Lemma flag_daily_anomaly_monotone_witness :
  flag_daily_anomaly float_of_decimal [] (Some (Fin 2500)) = Ok "DAILY_HIGH".
Proof.
  apply (proj1 (flag_daily_anomaly_monotone float_of_decimal [] (Some (Fin 1001)))
           1001 2500 eq_refl eq_refl).
  discriminate.
Defined.

Lemma flag_daily_anomaly_raises_iff_witness :
  flag_daily_anomaly float_of_decimal bad_limit (Some NaN) = Raise ValueError /\
  flag_daily_anomaly float_of_decimal bad_limit None <> Raise ValueError.
Proof.
  split.
  - apply (proj2 (flag_daily_anomaly_raises_iff float_of_decimal bad_limit
                    (Some NaN) ValueError)).
    split; [now exists NaN|reflexivity].
  - intros H.
    apply (proj1 (flag_daily_anomaly_raises_iff float_of_decimal bad_limit
                    None ValueError)) in H.
    destruct H as [(x & Hx) _]. discriminate Hx.
Defined.

Lemma flag_monthly_anomalies_marks_rows_witness :
  flag_monthly_anomalies float_of_decimal bad_jump [] = Raise ValueError /\
  exists out,
    flag_monthly_anomalies float_of_decimal []
      [mkMonthly "V1" "2025-01" (Fin 4000); mkMonthly "V1" "2025-02" (Fin 4001)]
    = Ok out /\
    map fst out
    = [mkMonthly "V1" "2025-01" (Fin 4000); mkMonthly "V1" "2025-02" (Fin 4001)].
Proof.
  split.
  - apply (proj1 (flag_monthly_anomalies_marks_rows float_of_decimal bad_jump [])).
    reflexivity.
  - destruct (proj1 (proj2 (flag_monthly_anomalies_marks_rows float_of_decimal []
                [mkMonthly "V1" "2025-01" (Fin 4000);
                 mkMonthly "V1" "2025-02" (Fin 4001)]))
                (Fin 4000) eq_refl) as (out & Hout & Hrows & _).
    exists out. now split.
Defined.

Lemma dashboard_lists_months_above_jump_witness :
  exists out,
    monthly float_of_decimal low_jump gapped_ledger = Ok out /\
    In (mkMonthly "V1" "2025-01" (Fin 40), "MONTHLY_HIGH") (monthly_flags out) /\
    ~ In (mkMonthly "V1" "NaT" (Fin 25), "MONTHLY_HIGH") (monthly_flags out).
Proof.
  eexists. split; [reflexivity|]. split.
  - apply (proj2 (dashboard_lists_months_above_jump float_of_decimal low_jump
                    gapped_ledger 30 _ eq_refl eq_refl
                    (mkMonthly "V1" "2025-01" (Fin 40)) "MONTHLY_HIGH")).
    split; [left; reflexivity|]. split; [reflexivity|]. split.
    + exists 40. left. reflexivity.
    + reflexivity.
  - intros H.
    apply (proj1 (dashboard_lists_months_above_jump float_of_decimal low_jump
                    gapped_ledger 30 _ eq_refl eq_refl
                    (mkMonthly "V1" "NaT" (Fin 25)) "MONTHLY_HIGH")) in H.
    destruct H as (_ & _ & _ & Hlt). vm_compute in Hlt. discriminate Hlt.
Defined.

Lemma monthly_rows_are_sorted_witness :
  String.leb "V1" "V1" = true /\ String.ltb "2025-01" "NaT" = true.
Proof.
  destruct (monthly_rows_are_sorted gapped_ledger []
              (mkMonthly "V1" "2025-01" (Fin 40)) []
              (mkMonthly "V1" "NaT" (Fin 25)) [] eq_refl) as [Hv Hm].
  split; [exact Hv|]. exact (proj1 (Hm eq_refl)).
Defined.

Lemma monthly_ignores_row_order_witness :
  Forall2 (fun g g' =>
             VehicleID g = VehicleID g' /\ Month g = Month g' /\
             MonthlyDistance g
             = sum_min_count 1
                 (labelled_distances false gapped_ledger (VehicleID g) (Month g)) /\
             MonthlyDistance g'
             = sum_min_count 1
                 (labelled_distances false (rev gapped_ledger)
                    (VehicleID g) (Month g)) /\
             Permutation
               (labelled_distances false gapped_ledger (VehicleID g) (Month g))
               (labelled_distances false (rev gapped_ledger)
                  (VehicleID g) (Month g)) /\
             (MonthlyDistance g = NaN <-> MonthlyDistance g' = NaN))
    (monthly_vehicle_distance_with false gapped_ledger)
    (monthly_vehicle_distance_with false (rev gapped_ledger)).
Proof.
  apply (monthly_ignores_row_order false gapped_ledger (rev gapped_ledger)).
  apply Permutation_rev.
Defined.

Lemma mileage_chart_is_always_built_witness :
  exists out p,
    monthly float_of_decimal [] gapped_ledger = Ok out /\
    pivot_chart out = Ok p /\
    index p = ["2025-01"; "NaT"] /\ columns p = ["V1"] /\
    Forall (Forall (fun x => x <> NaN)) (cells p).
Proof.
  destruct (mileage_chart_is_always_built float_of_decimal [] gapped_ledger _ eq_refl)
    as (p & Hp & _ & _ & _ & Hcells).
  eexists. exists p. split; [reflexivity|]. split; [exact Hp|].
  injection Hp as <-. split; [reflexivity|]. split; [reflexivity|exact Hcells].
Defined.

Lemma service_alerts_monotone_witness :
  exists rows',
    service_alerts float_of_decimal [] [other_vehicle; sample_vehicle 12000]
    = Ok rows' /\
    In (sample_vehicle 12000) (map fst rows').
Proof.
  destruct (service_alerts_monotone float_of_decimal [] [sample_vehicle 10000]
              [other_vehicle; sample_vehicle 12000] _
              (sample_vehicle 10000) (sample_vehicle 12000)
              (inject_Z 10000) (inject_Z 12000) eq_refl) as [_ H].
  - left. reflexivity.
  - right. left. reflexivity.
  - reflexivity.
  - reflexivity.
  - discriminate.
  - reflexivity.
  - exact H.
Defined.

Lemma submit2_outcomes_witness :
  (exists u v, submit2 float_of_decimal [] [] [sample_vehicle 100] "admin"
                 (sample_form 100 100) = Committed u v) /\
  submit2 float_of_decimal [] [] [sample_vehicle 100] "admin" (sample_form 100 99)
  = Rejected rejection.
Proof.
  split.
  - apply (proj2 (proj2 (proj2 (submit2_outcomes float_of_decimal [] []
                                  [sample_vehicle 100] "admin" (sample_form 100 100))))).
    split; [right; simpl; lia|]. exists (Fin 1000). reflexivity.
  - apply (proj2 (proj1 (submit2_outcomes float_of_decimal [] []
                           [sample_vehicle 100] "admin" (sample_form 100 99))
                    rejection)).
    split; [reflexivity|]. split; [reflexivity|simpl; lia].
Defined.

Lemma commit_keeps_identifiers_unique_witness :
  exists u v,
    submit2 float_of_decimal [] gapped_ledger [sample_vehicle 5000] "admin"
      (sample_form 5000 5100) = Committed u v /\
    NoDup (map Usage.LogID u).
Proof.
  destruct (commit_keeps_identifiers_unique float_of_decimal [] gapped_ledger
              [sample_vehicle 5000] "admin" (sample_form 5000 5100) _ _ eq_refl)
    as (new_row & _ & _ & Hn & _).
  eexists. eexists. split; [reflexivity|]. apply Hn.
  repeat constructor; simpl; intuition discriminate.
Defined.

Lemma committed_row_is_consistent_witness :
  exists new_row v,
    submit2 float_of_decimal [] [] [sample_vehicle 5000] "admin"
      (sample_form 5000 5100) = Committed [new_row] v /\
    Usage.ApprovedBy new_row = "admin" /\
    compute_distance (Some (Usage.OdoStart new_row)) (Some (Usage.OdoEnd new_row))
    = Some (Usage.Distance new_row).
Proof.
  destruct (committed_row_is_consistent float_of_decimal [] [] [sample_vehicle 5000]
              "admin" (sample_form 5000 5100) _ _ eq_refl)
    as (new_row & Hu & _ & _ & _ & _ & _ & _ & _ & _ & Ha & _ & Hd & _).
  exists new_row. eexists. split; [|split; [exact Ha|exact Hd]].
  injection Hu as <-. reflexivity.
Defined.

Lemma block_keeps_odometer_from_going_down_witness :
  exists u v r' o o',
    submit2 float_of_decimal [] [] [sample_vehicle 5000] "admin"
      (sample_form 5000 5100) = Committed u v /\
    nth_error v 0 = Some r' /\
    Vehicle.Odometer (sample_vehicle 5000) = Fin o /\
    Vehicle.Odometer r' = Fin o' /\ o <= o'.
Proof.
  destruct (block_keeps_odometer_from_going_down float_of_decimal [] []
              [sample_vehicle 5000] "admin" (sample_form 5000 5100) _ _
              eq_refl eq_refl) as (_ & _ & H).
  destruct (H 0%nat (sample_vehicle 5000) eq_refl eq_refl eq_refl)
    as (r' & o & o' & Hn & Ho & Ho' & Hle).
  eexists. eexists. exists r', o, o'. split; [reflexivity|]. now repeat split.
Defined.

Lemma commit_then_service_alert_witness :
  (exists rows, service_alerts float_of_decimal [] [sample_vehicle 5000] = Ok rows /\
                ~ In (sample_vehicle 5000) (map fst rows)) /\
  (exists u v r' rows,
      submit2 float_of_decimal [] [] [sample_vehicle 5000] "admin"
        (sample_form 5000 10000) = Committed u v /\
      nth_error v 0 = Some r' /\
      service_alerts float_of_decimal [] v = Ok rows /\
      In r' (map fst rows)).
Proof.
  split.
  - eexists. split; [reflexivity|]. intros [].
  - destruct (commit_then_service_alert float_of_decimal [] [] [sample_vehicle 5000]
                "admin" (sample_form 5000 10000) _ _ 0%nat (sample_vehicle 5000)
                (inject_Z 0) (inject_Z 10000) eq_refl eq_refl eq_refl eq_refl eq_refl)
      as (r' & rows & Hn & Hs & Hiff).
    eexists. eexists. exists r', rows. split; [reflexivity|].
    split; [exact Hn|]. split; [exact Hs|]. apply Hiff. discriminate.
Defined.

Lemma successive_commits_have_consecutive_identifiers_witness :
  exists u v u' v' row1 row2,
    submit2 float_of_decimal [] gapped_ledger [sample_vehicle 5000] "admin"
      (sample_form 5000 5100) = Committed u v /\
    submit2 float_of_decimal [] u v "admin" (sample_form 5100 5200)
    = Committed u' v' /\
    u' = (gapped_ledger ++ [row1; row2])%list /\
    Usage.LogID row2 = (Usage.LogID row1 + 1)%Z.
Proof.
  destruct (successive_commits_have_consecutive_identifiers float_of_decimal []
              gapped_ledger [sample_vehicle 5000] "admin" (sample_form 5000 5100)
              _ _ [] "admin" (sample_form 5100 5200) _ _ eq_refl eq_refl)
    as (row1 & row2 & Hu & Hid).
  eexists. eexists. eexists. eexists. exists row1, row2.
  split; [reflexivity|]. split; [reflexivity|]. now split.
Defined.

Lemma authenticate_needs_both_fields_witness :
  authenticate sample_users "aminah" "wrong" = None /\
  authenticate [] "aminah" "s3cret" = None /\
  exists a, authenticate sample_users "aminah" "s3cret" = Some a /\
            Auth.username a = "aminah".
Proof.
  split; [|split].
  - apply (proj1 (authenticate_needs_both_fields sample_users "aminah" "wrong")).
    intros r [<-|[<-|[<-|[]]]] [Hu Hp]; discriminate.
  - apply (proj1 (authenticate_needs_both_fields [] "aminah" "s3cret")).
    intros r [].
  - eexists. split; [reflexivity|].
    apply (proj2 (authenticate_needs_both_fields sample_users "aminah" "s3cret")
             _ eq_refl).
Defined.

Lemma first_account_decides_the_role_witness :
  exists a, authenticate sample_users "radzi" "pw1" = Some a /\
            Auth.role a = "Admin" /\ In "Admin" (sections (Auth.role a)).
Proof.
  assert (Hb : forall x, In x [Account.mk "aminah" "s3cret" "User" "Aminah" "PGB"] ->
                         ~ (Account.Username x = "radzi" /\ Account.Password x = "pw1"))
    by (intros x [<-|[]] [Hu _]; discriminate).
  destruct (proj1 (first_account_decides_the_role
                     [Account.mk "aminah" "s3cret" "User" "Aminah" "PGB"]
                     (Account.mk "radzi" "pw1" "Admin" "Radzi" "PGB")
                     [Account.mk "radzi" "pw1" "User" "Radzi (old)" "PGB"]
                     "radzi" "pw1" Hb eq_refl eq_refl))
    as (a & Ha & Hr & Hadmin).
  exists a. split; [exact Ha|]. split; [exact Hr|]. apply Hadmin. reflexivity.
Defined.

Lemma dashboard_counts_each_vehicle_once_witness :
  in_use sample_fleet = 2%Z /\ (0 <= available sample_fleet <= 3)%Z.
Proof.
  destruct (dashboard_counts_each_vehicle_once sample_fleet) as (Hu & Ha & _).
  split; [exact Hu|exact Ha].
Defined.

Lemma commit_never_lowers_availability_witness :
  exists u v,
    submit2 float_of_decimal [] [] sample_fleet "admin" (sample_form 5000 5100)
    = Committed u v /\
    (available sample_fleet <= available v)%Z /\ available v = 2%Z.
Proof.
  destruct (commit_never_lowers_availability float_of_decimal [] [] sample_fleet
              "admin" (sample_form 5000 5100) _ _ eq_refl) as (_ & Ha & _).
  eexists. eexists. split; [reflexivity|]. split; [exact Ha|reflexivity].
Defined.

Lemma availability_by_company_splits_the_fleet_witness :
  map Company (availability_by_company sample_fleet) = ["Contractor"; "PGB"] /\
  (Zsum (map Total (availability_by_company sample_fleet)) = 3%Z /\
   Zsum (map Available (availability_by_company sample_fleet)) = 1%Z /\
   Zsum (map InUse (availability_by_company sample_fleet)) = 2%Z) /\
  availability_by_company (unowned_vehicle :: sample_fleet)
  = availability_by_company sample_fleet /\
  total_vehicles (unowned_vehicle :: sample_fleet) = 4%Z /\
  (Zsum (map Total (availability_by_company (unowned_vehicle :: sample_fleet))) = 3%Z /\
   Zsum (map Available (availability_by_company (unowned_vehicle :: sample_fleet)))
   = 1%Z /\
   Zsum (map InUse (availability_by_company (unowned_vehicle :: sample_fleet)))
   = 2%Z).
Proof.
  destruct (availability_by_company_splits_the_fleet sample_fleet)
    as (_ & _ & _ & _ & _ & _ & Hall).
  destruct (availability_by_company_splits_the_fleet (unowned_vehicle :: sample_fleet))
    as (_ & _ & _ & Howned & Hsums & _).
  split; [reflexivity|]. split; [|split; [exact Howned|split; [reflexivity|exact Hsums]]].
  apply Hall. intros r [<-|[<-|[<-|[]]]]; discriminate.
Defined.

Lemma report_shows_matching_trips_witness :
  In (sample_trip 7 (Some (mkDate 2025 1 22)) (Some "V1") NaN)
     (report "PGB" "V1" "All" gapped_ledger) /\
  report "Contractor" "All" "All" gapped_ledger = [].
Proof.
  split.
  - apply (proj1 (report_shows_matching_trips "PGB" "V1" "All" gapped_ledger)).
    split; [right; left; reflexivity|]. split; [now right|]. split; [now right|now left].
  - destruct (report "Contractor" "All" "All" gapped_ledger) as [|r l] eqn:E;
      [reflexivity|].
    assert (H : In r (report "Contractor" "All" "All" gapped_ledger))
      by (rewrite E; now left).
    apply (proj1 (report_shows_matching_trips "Contractor" "All" "All" gapped_ledger))
      in H.
    destruct H as ([<-|[<-|[<-|[]]]] & [C|C] & _); discriminate C.
Defined.

Lemma filters_offer_what_the_frame_holds_witness :
  vehicle_options gapped_ledger = ["All"; "V1"] /\
  report "All" "V1" "All" gapped_ledger <> [].
Proof.
  split; [reflexivity|].
  destruct (filters_offer_what_the_frame_holds gapped_ledger)
    as (_ & _ & _ & _ & Hv & _).
  apply Hv; [right; left; reflexivity|discriminate].
Defined.
